(** * Yoosee camera intercom: the pacing client, embedded and verified

    A shallow embedding of the two JavaScript programs of the repository:

    - the multi-camera client (class [CameraClient], the transcoder fan-out
      of [startCentralizedStreaming]), embedded at the top level;
    - the single-camera client [intercom.js], embedded in [Module Single]
      as far as it differs.

    Conventions of the embedding.

    - A Node [Buffer] is a [list byte]; a JavaScript string is a [string].
    - JavaScript numbers that hold integers (lengths, byte counters, the
      sample rate, [Date.now()] readings) are [Z]; the one genuinely
      fractional computation, the pacing test of [processQueue], is done in
      IEEE-754 binary64 with the kernel's primitive floats, operation for
      operation as the source writes it.  [num] is exact for integers of
      magnitude below 2^53, which is the range in which JavaScript itself
      holds them exactly.  [sampleRate] is the result of [parseInt]; the
      [NaN] it yields on a malformed argument is outside the model.
    - The objects are mutated in place by the source; here every method takes
      the object and returns the updated one.
    - [Date.now()] is an input: a [Clock] is threaded through every function
      that reads it, one reading consumed per call.
    - [setImmediate] and [setTimeout] do not run anything by themselves: a
      method returns the timer it registered, and [Session] keeps the list
      of callbacks that the event loop still owes to a client. *)

From Stdlib Require Import ZArith Lia Bool Floats.
From Stdlib.Strings Require Import String Ascii Byte.
From Stdlib Require Import List.
Import ListNotations.

Open Scope Z_scope.

(** ** Buffers *)

Definition Buffer : Type := list byte.

(** The byte stored by an indexed assignment [buf[i] = v]: [v] modulo 256. *)
Definition byte_of_Z (v : Z) : byte :=
  match Byte.of_N (Z.to_N (Z.land v 255)) with
  | Some b => b
  | None => x00
  end.

Definition Z_of_byte (b : byte) : Z := Z.of_N (Byte.to_N b).

(** [Buffer.alloc(n)] and [Buffer.alloc(n, 0)]: [n] zero bytes. *)
Definition Buffer_alloc (n : nat) : Buffer := repeat x00 n.

(** [buf[i] = b]; an index past the end is ignored, as Node does. *)
Fixpoint poke (i : nat) (b : byte) (buf : Buffer) : Buffer :=
  match buf, i with
  | [], _ => []
  | _ :: rest, O => b :: rest
  | x :: rest, S j => x :: poke j b rest
  end.

(** [buf.writeUInt16LE(v, offset)]: low byte first. *)
Definition writeUInt16LE (v : Z) (offset : nat) (buf : Buffer) : Buffer :=
  poke (S offset) (byte_of_Z (Z.shiftr v 8))
       (poke offset (byte_of_Z v) buf).

(** [buf.readUInt16LE(offset)], used to decode what [writeUInt16LE] wrote. *)
Definition readUInt16LE (offset : nat) (buf : Buffer) : Z :=
  Z.lor (Z_of_byte (nth offset buf x00))
        (Z.shiftl (Z_of_byte (nth (S offset) buf x00)) 8).

(** [Buffer.concat]. *)
Definition Buffer_concat (parts : list Buffer) : Buffer := concat parts.

(** [buf.slice(a, b)] for [0 <= a <= b]: the bytes from [a] up to [b],
    cut at the end of the buffer. *)
Definition slice (a b : nat) (buf : Buffer) : Buffer :=
  firstn (b - a) (skipn a buf).

(** ** Strings *)

Definition CRLF : string :=
  String (ascii_of_nat 13) (String (ascii_of_nat 10) EmptyString).

(** [haystack.includes(needle)]: does [needle] occur at some position? *)
Fixpoint includes (needle haystack : string) : bool :=
  if String.prefix needle haystack then true
  else match haystack with
       | EmptyString => false
       | String _ rest => includes needle rest
       end.

(** ** Fixed technical configuration *)

Definition CHUNK_SIZE : Z := 320.
Definition FRAME_LEN : Z := 332.
Definition MAX_BUFFER_AHEAD_MS : Z := 2000.
Definition SPEED_MULTIPLIER : Z := 1.

(** The bound on the queue of a client that is not connected (the literal
    50000 of [enqueue]). *)
Definition MAX_QUEUE_WHILE_DISCONNECTED : Z := 50000.

(** ** Numbers: the pacing test in binary64 *)

(** An integer as a JavaScript number. *)
Definition num (z : Z) : float :=
  match z with
  | Z0 => PrimFloat.zero
  | Zpos _ => PrimFloat.of_uint63 (Uint63.of_Z z)
  | Zneg p => PrimFloat.opp (PrimFloat.of_uint63 (Uint63.of_Z (Zpos p)))
  end.

(** [((totalBytesSent / bytesPerSecond) * 1000) / SPEED_MULTIPLIER]. *)
Definition audioTimeSentAdjusted (totalBytesSent bytesPerSecond : Z) : float :=
  PrimFloat.div
    (PrimFloat.mul (PrimFloat.div (num totalBytesSent) (num bytesPerSecond))
                   (num 1000))
    (num SPEED_MULTIPLIER).

(** [audioTimeSentAdjusted > timeElapsed + MAX_BUFFER_AHEAD_MS]. *)
Definition tooFarAhead (totalBytesSent bytesPerSecond timeElapsed : Z) : bool :=
  PrimFloat.ltb
    (PrimFloat.add (num timeElapsed) (num MAX_BUFFER_AHEAD_MS))
    (audioTimeSentAdjusted totalBytesSent bytesPerSecond).

(** ** The clock and the timers *)

(** [reading n] is what the [n]-th call of [Date.now()] returns. *)
Record Clock : Type := mkClock { reading : nat -> Z; ticks : nat }.

Definition Date_now (k : Clock) : Z * Clock :=
  (reading k (ticks k), mkClock (reading k) (S (ticks k))).

(** A clock that stands still at [t]. *)
Definition frozen (t : Z) : Clock := mkClock (fun _ => t) 0.

(** The callback registered for [processQueue]. *)
Inductive Timer : Type :=
| setImmediate : Timer
| setTimeout (ms : Z) : Timer.

(** ** The socket *)

Record Socket : Type := mkSocket {
  destroyed : bool;          (* socket.destroyed *)
  timeoutMs : Z;             (* the value given to socket.setTimeout *)
  written : list Buffer      (* every socket.write so far, oldest first *)
}.

Definition socket_write (data : Buffer) (s : Socket) : Socket :=
  mkSocket (destroyed s) (timeoutMs s) (written s ++ [data]).

Definition socket_setTimeout (ms : Z) (s : Socket) : Socket :=
  mkSocket (destroyed s) ms (written s).

Definition socket_destroy (s : Socket) : Socket :=
  mkSocket true (timeoutMs s) (written s).

(** ** The camera client *)

Record CameraClient : Type := mkCameraClient {
  ip : string;
  port : Z;
  sampleRate : Z;
  socket : Socket;
  audioQueue : list Buffer;
  startTime : Z;
  totalBytesSent : Z;
  isThrottling : bool;
  isConnected : bool
}.

Definition set_socket (s : Socket) (c : CameraClient) : CameraClient :=
  mkCameraClient (ip c) (port c) (sampleRate c) s (audioQueue c)
                 (startTime c) (totalBytesSent c) (isThrottling c) (isConnected c).

Definition set_audioQueue (q : list Buffer) (c : CameraClient) : CameraClient :=
  mkCameraClient (ip c) (port c) (sampleRate c) (socket c) q
                 (startTime c) (totalBytesSent c) (isThrottling c) (isConnected c).

Definition set_startTime (t : Z) (c : CameraClient) : CameraClient :=
  mkCameraClient (ip c) (port c) (sampleRate c) (socket c) (audioQueue c)
                 t (totalBytesSent c) (isThrottling c) (isConnected c).

Definition set_totalBytesSent (n : Z) (c : CameraClient) : CameraClient :=
  mkCameraClient (ip c) (port c) (sampleRate c) (socket c) (audioQueue c)
                 (startTime c) n (isThrottling c) (isConnected c).

Definition set_isThrottling (b : bool) (c : CameraClient) : CameraClient :=
  mkCameraClient (ip c) (port c) (sampleRate c) (socket c) (audioQueue c)
                 (startTime c) (totalBytesSent c) b (isConnected c).

Definition set_isConnected (b : bool) (c : CameraClient) : CameraClient :=
  mkCameraClient (ip c) (port c) (sampleRate c) (socket c) (audioQueue c)
                 (startTime c) (totalBytesSent c) (isThrottling c) b.

(** The constructor, [setupSocket]'s [setTimeout(10000)] included. *)
Definition new_CameraClient (ip0 : string) (port0 sampleRate0 : Z) : CameraClient :=
  mkCameraClient ip0 port0 sampleRate0 (mkSocket false 10000 []) [] 0 0 false false.

(** *** The control messages *)

Definition openCmd (address : string) : string :=
  ("USER_CMD_SET rtsp://" ++ address ++ "/onvif1 RTSP/1.0" ++ CRLF ++
   "CSeq: 8" ++ CRLF ++
   "Content-length: strlen(Content-type)" ++ CRLF ++
   "Content-type: AudioCtlCmd:OPEN" ++ CRLF ++ CRLF)%string.

Definition closeCmd (address : string) : string :=
  ("USER_CMD_SET rtsp://" ++ address ++ "/onvif1 RTSP/1.0" ++ CRLF ++
   "CSeq: 10" ++ CRLF ++
   "Content-length: strlen(Content-type)" ++ CRLF ++
   "Content-type: AudioCtlCmd:CLOSE" ++ CRLF ++ CRLF)%string.

(** The test the ['data'] handler applies to what the camera sent. *)
Definition isHandshakeAccepted (inboundText : string) : bool :=
  includes "CSeq: 8" inboundText.

(** The callback of [socket.connect]: the OPEN command goes out. *)
Definition connect (c : CameraClient) : CameraClient :=
  set_socket (socket_write (list_byte_of_string (openCmd (ip c))) (socket c)) c.

(** *** Framing *)

(** The four header bytes [sendRtspFrame] builds. *)
Definition frameHeader : Buffer :=
  writeUInt16LE FRAME_LEN 2
    (poke 1 (byte_of_Z 0x02) (poke 0 (byte_of_Z 0x24) (Buffer_alloc 4))).

(** What [sendRtspFrame] hands to [socket.write]. *)
Definition rtspFrame (chunk : Buffer) : Buffer :=
  Buffer_concat [frameHeader; Buffer_alloc 12; chunk].

(** [sendRtspFrame(chunk)].  The argument is what [audioQueue.shift()]
    returned: [None] is [undefined], on which [Buffer.concat] throws inside
    the [try], so that nothing is written and nothing is counted. *)
Definition sendRtspFrame (chunk : option Buffer) (c : CameraClient) : CameraClient :=
  if destroyed (socket c) then c
  else match chunk with
       | None => c
       | Some b =>
           set_totalBytesSent (totalBytesSent c + Z.of_nat (List.length b))
             (set_socket (socket_write (rtspFrame b) (socket c)) c)
       end.

(** [this.audioQueue.shift()]. *)
Definition shift (c : CameraClient) : option Buffer * CameraClient :=
  match audioQueue c with
  | [] => (None, c)
  | b :: rest => (Some b, set_audioQueue rest c)
  end.

(** *** The pacer *)

(** [Math.floor(this.sampleRate * 2 / CHUNK_SIZE)]: on integers, the floor
    of the quotient is [Z]'s division. *)
Definition burstPackets (rate : Z) : Z := (rate * 2) / CHUNK_SIZE.

(** [for (let i = 0; i < burstPackets; i++) sendRtspFrame(audioQueue.shift())]. *)
Fixpoint burstLoop (n : nat) (c : CameraClient) : CameraClient :=
  match n with
  | O => c
  | S m => let '(chunk, c1) := shift c in burstLoop m (sendRtspFrame chunk c1)
  end.

(** The part of [processQueue] after the burst block: the pacing test, and
    one chunk sent when the client is not too far ahead. *)
Definition maintain (c : CameraClient) (k : Clock) : (CameraClient * option Timer) * Clock :=
  let '(now, k1) := Date_now k in
  let timeElapsed := now - startTime c in
  let bytesPerSecond := sampleRate c * 2 in
  if tooFarAhead (totalBytesSent c) bytesPerSecond timeElapsed then
    ((c, Some (setTimeout 10)), k1)
  else
    let '(chunk, c1) := shift c in
    let c2 := match chunk with
              | Some b => sendRtspFrame (Some b) c1
              | None => c1
              end in
    ((c2, Some setImmediate), k1).

Definition processQueue (c : CameraClient) (k : Clock) : (CameraClient * option Timer) * Clock :=
  if destroyed (socket c) then ((set_audioQueue [] c, None), k)
  else if negb (isConnected c) then ((c, None), k)
  else
    let c := set_isThrottling true c in
    if (List.length (audioQueue c) =? 0)%nat then ((set_isThrottling false c, None), k)
    else if startTime c =? 0 then
      if Z.of_nat (List.length (audioQueue c)) >? burstPackets (sampleRate c) then
        let c1 := burstLoop (Z.to_nat (burstPackets (sampleRate c))) c in
        let '(now, k1) := Date_now k in
        maintain (set_startTime now c1) k1
      else ((set_isThrottling false c, None), k)
    else maintain c k.

(** *** Enqueue *)

Definition enqueue (chunk : Buffer) (c : CameraClient) (k : Clock) : (CameraClient * option Timer) * Clock :=
  let c1 := set_audioQueue (audioQueue c ++ [chunk]) c in
  let c2 := if negb (isConnected c1) && (MAX_QUEUE_WHILE_DISCONNECTED <? Z.of_nat (List.length (audioQueue c1)))
            then snd (shift c1) else c1 in
  if isConnected c2 && negb (isThrottling c2) then processQueue c2 k
  else ((c2, None), k).

(** *** The socket's events *)

Definition on_timeout (c : CameraClient) : CameraClient :=
  set_audioQueue [] (set_isConnected false (set_socket (socket_destroy (socket c)) c)).

Definition on_data (data : string) (c : CameraClient) (k : Clock) : (CameraClient * option Timer) * Clock :=
  if isHandshakeAccepted data then
    let c1 := set_socket (socket_setTimeout 0 (socket c)) (set_isConnected true c) in
    if (0 <? List.length (audioQueue c1))%nat then processQueue c1 k
    else ((c1, None), k)
  else ((c, None), k).

Definition on_error (c : CameraClient) : CameraClient := set_isConnected false c.

Definition on_close (c : CameraClient) : CameraClient := set_isConnected false c.

(** ** The event loop's view of a client *)

(** A client together with the [processQueue] callbacks it has registered
    and that have not run yet, oldest first. *)
Record Session : Type := mkSession { client : CameraClient; pending : list Timer }.

Definition register (t : option Timer) (p : list Timer) : list Timer :=
  match t with
  | Some x => p ++ [x]
  | None => p
  end.

(** [client.enqueue(chunk)], the timer it may register kept. *)
Definition Session_enqueue (chunk : Buffer) (s : Session) (k : Clock) : Session * Clock :=
  let '((c, t), k1) := enqueue chunk (client s) k in
  (mkSession c (register t (pending s)), k1).

(** The event loop runs the oldest registered callback. *)
Definition fire (s : Session) (k : Clock) : Session * Clock :=
  match pending s with
  | [] => (s, k)
  | _ :: rest =>
      let '((c, t), k1) := processQueue (client s) k in
      (mkSession c (register t rest), k1)
  end.

(** The event loop runs callbacks until none is left, [fuel] of them at most. *)
Fixpoint run_pending (fuel : nat) (s : Session) (k : Clock) : Session * Clock :=
  match fuel with
  | O => (s, k)
  | S f =>
      match pending s with
      | [] => (s, k)
      | _ :: _ => let '(s1, k1) := fire s k in run_pending f s1 k1
      end
  end.

(** [chunks.forEach(chunk => client.enqueue(chunk))] on one client. *)
Fixpoint feed (chunks : list Buffer) (s : Session) (k : Clock) : Session * Clock :=
  match chunks with
  | [] => (s, k)
  | b :: rest => let '(s1, k1) := Session_enqueue b s k in feed rest s1 k1
  end.

(** ** The fan-out of the transcoder's output *)

(** [clients.forEach(client => client.enqueue(subChunk))]. *)
Fixpoint forEach_enqueue (subChunk : Buffer) (clients : list Session) (k : Clock)
  : list Session * Clock :=
  match clients with
  | [] => ([], k)
  | s :: rest =>
      let '(s1, k1) := Session_enqueue subChunk s k in
      let '(rest1, k2) := forEach_enqueue subChunk rest k1 in
      (s1 :: rest1, k2)
  end.

(** The values [i / CHUNK_SIZE] taken by the loop variable of
    [for (let i = 0; i < chunk.length; i += CHUNK_SIZE)]. *)
Definition loopIndices (len : nat) : list nat :=
  seq 0 ((len + (Z.to_nat CHUNK_SIZE - 1)) / Z.to_nat CHUNK_SIZE).

(** The body of that loop, for the given values of the loop variable. *)
Fixpoint fanOutLoop (js : list nat) (chunk : Buffer) (clients : list Session) (k : Clock)
  : list Session * Clock :=
  match js with
  | [] => (clients, k)
  | j :: more =>
      let i := (j * Z.to_nat CHUNK_SIZE)%nat in
      let subChunk := slice i (i + Z.to_nat CHUNK_SIZE) chunk in
      let '(clients1, k1) :=
        if Z.of_nat (List.length subChunk) =? CHUNK_SIZE
        then forEach_enqueue subChunk clients k
        else (clients, k) in
      fanOutLoop more chunk clients1 k1
  end.

(** The ['data'] handler of [ffmpeg.stdout]. *)
Definition on_stdout_data (chunk : Buffer) (clients : list Session) (k : Clock)
  : list Session * Clock :=
  fanOutLoop (loopIndices (List.length chunk)) chunk clients k.

(** ** The single-camera client, [intercom.js] *)

Module Single.

(** The module-level variables of the script, and what went to the socket. *)
Record State : Type := mkState {
  audioQueue : list Buffer;
  startTime : Z;
  totalBytesSent : Z;
  isThrottling : bool;
  written : list Buffer
}.

Definition openCmd (address : string) : string :=
  ("USER_CMD_SET rtsp://" ++ address ++ "/onvif0 RTSP/1.0" ++ CRLF ++
   "CSeq: 8" ++ CRLF ++
   "Content-length: strlen(Content-type)" ++ CRLF ++
   "Content-type: AudioCtlCmd:OPEN" ++ CRLF ++ CRLF)%string.

Definition closeCmd (address : string) : string :=
  ("USER_CMD_SET rtsp://" ++ address ++ "/onvif1 RTSP/1.0" ++ CRLF ++
   "CSeq: 10" ++ CRLF ++
   "Content-length: strlen(Content-type)" ++ CRLF ++
   "Content-type: AudioCtlCmd:CLOSE" ++ CRLF ++ CRLF)%string.

(** [sendRtspFrame(chunk)] for a chunk that is a buffer. *)
Definition sendRtspFrame (chunk : Buffer) (s : State) : State :=
  mkState (audioQueue s) (startTime s)
          (totalBytesSent s + Z.of_nat (List.length chunk))
          (isThrottling s)
          (written s ++ [Buffer_concat [frameHeader; Buffer_alloc 12; chunk]]).

End Single.

(** *** Shutdown *)

(** [stop()]: the CLOSE command is written when the socket reports itself
    writable ([writable] is [socket.writable], the runtime's answer); the
    destruction that follows 50 ms later is [socket_destroy]. *)
Definition stop (writable : bool) (c : CameraClient) : CameraClient :=
  if writable
  then set_socket (socket_write (list_byte_of_string (closeCmd (ip c))) (socket c)) c
  else c.

(** ** What a client can become *)

(** The states of a client that the program can produce: the constructor,
    then any interleaving of the methods and of the socket's events, where
    [enqueue] receives what the fan-out passes, chunks of [CHUNK_SIZE] bytes. *)
Inductive Reachable : CameraClient -> Prop :=
| R_new : forall address p rate, Reachable (new_CameraClient address p rate)
| R_connect : forall c, Reachable c -> Reachable (connect c)
| R_enqueue : forall c chunk k,
    Reachable c -> Z.of_nat (List.length chunk) = CHUNK_SIZE ->
    Reachable (fst (fst (enqueue chunk c k)))
| R_processQueue : forall c k, Reachable c -> Reachable (fst (fst (processQueue c k)))
| R_data : forall c data k, Reachable c -> Reachable (fst (fst (on_data data c k)))
| R_timeout : forall c, Reachable c -> Reachable (on_timeout c)
| R_error : forall c, Reachable c -> Reachable (on_error c)
| R_close : forall c, Reachable c -> Reachable (on_close c)
| R_stop : forall c writable, Reachable c -> Reachable (stop writable c)
| R_destroy : forall c, Reachable c -> Reachable (set_socket (socket_destroy (socket c)) c).

(** The states of a client that the camera has not accepted yet: as
    [Reachable], without an accepting ['data'] event, and with [enqueue]
    receiving any chunk. *)
Inductive NotYetStreaming : CameraClient -> Prop :=
| N_new : forall address p rate, NotYetStreaming (new_CameraClient address p rate)
| N_connect : forall c, NotYetStreaming c -> NotYetStreaming (connect c)
| N_enqueue : forall c chunk k,
    NotYetStreaming c -> NotYetStreaming (fst (fst (enqueue chunk c k)))
| N_data : forall c data k,
    NotYetStreaming c -> isHandshakeAccepted data = false ->
    NotYetStreaming (fst (fst (on_data data c k)))
| N_timeout : forall c, NotYetStreaming c -> NotYetStreaming (on_timeout c)
| N_error : forall c, NotYetStreaming c -> NotYetStreaming (on_error c)
| N_close : forall c, NotYetStreaming c -> NotYetStreaming (on_close c)
| N_stop : forall c writable, NotYetStreaming c -> NotYetStreaming (stop writable c)
| N_destroy : forall c,
    NotYetStreaming c -> NotYetStreaming (set_socket (socket_destroy (socket c)) c).

(** The bytes of audio in a list of chunks. *)
Definition bytesOf (chunks : list Buffer) : Z :=
  fold_right (fun b acc => Z.of_nat (List.length b) + acc) 0 chunks.

(** What the overflow test of [enqueue] leaves of the queue of a client that
    is not connected: the oldest chunk goes when the bound is exceeded. *)
Definition keepBound (q : list Buffer) : list Buffer :=
  if MAX_QUEUE_WHILE_DISCONNECTED <? Z.of_nat (List.length q) then tl q else q.

(** The queue of a client that is not connected after the chunks were
    enqueued one by one. *)
Definition retained (q chunks : list Buffer) : list Buffer :=
  fold_left (fun acc b => keepBound (acc ++ [b])) chunks q.

(** The invariant of the byte counter: whole chunks only, in the queue and
    in the count. *)
Definition Paced (c : CameraClient) : Prop :=
  Forall (fun b => Z.of_nat (List.length b) = CHUNK_SIZE) (audioQueue c) /\
  (CHUNK_SIZE | totalBytesSent c).

(** A client on which two more [enqueue] calls cannot start a burst: it is
    not connected, or its pacer is busy, or it is connected and idle on a
    live socket before its first burst, with a burst of two chunks at least. *)
Definition Holding (c : CameraClient) : Prop :=
  isConnected c = true -> isThrottling c = false ->
  destroyed (socket c) = false /\ startTime c = 0 /\ 2 <= burstPackets (sampleRate c).

(** ** The session as a whole *)

(** Everything a client has been given to send, in order: the writes made so
    far, then the frames of the chunks still queued. *)
Definition history (c : CameraClient) : list Buffer :=
  written (socket c) ++ map rtspFrame (audioQueue c).

(** The ['data'] event on a session, the timer it may register kept. *)
Definition Session_on_data (data : string) (s : Session) (k : Clock) : Session * Clock :=
  let '((c, t), k1) := on_data data (client s) k in
  (mkSession c (register t (pending s)), k1).

(** At most one [processQueue] callback is owed to the client, and only
    while its pacer is marked busy. *)
Definition SingleFlight (s : Session) : Prop :=
  pending s = [] \/ (isThrottling (client s) = true /\ exists t, pending s = [t]).

(** The full windows of [CHUNK_SIZE] bytes of a block of transcoder output,
    in order. *)
Definition fullChunks (data : Buffer) : list Buffer :=
  map (fun j => slice (j * Z.to_nat CHUNK_SIZE)
                      (j * Z.to_nat CHUNK_SIZE + Z.to_nat CHUNK_SIZE) data)
      (seq 0 (List.length data / Z.to_nat CHUNK_SIZE)).

(** [chunks.forEach(chunk => clients.forEach(client => client.enqueue(chunk)))]. *)
Fixpoint deliver (chunks : list Buffer) (clients : list Session) (k : Clock)
  : list Session * Clock :=
  match chunks with
  | [] => (clients, k)
  | b :: rest =>
      let '(clients1, k1) := forEach_enqueue b clients k in
      deliver rest clients1 k1
  end.

(** [enqueue] on a session that is not connected, as a function of the
    session alone. *)
Definition buffered (chunks : list Buffer) (s : Session) : Session :=
  mkSession (set_audioQueue (retained (audioQueue (client s)) chunks) (client s))
            (pending s).

(** What happens to a session while it streams: a chunk arrives from the
    fan-out, or the event loop runs the oldest registered callback. *)
Inductive Event : Type :=
| Chunk (b : Buffer) : Event
| Callback : Event.

Definition step (e : Event) (s : Session) (k : Clock) : Session * Clock :=
  match e with
  | Chunk b => Session_enqueue b s k
  | Callback => fire s k
  end.

Fixpoint play (es : list Event) (s : Session) (k : Clock) : Session * Clock :=
  match es with
  | [] => (s, k)
  | e :: rest => let '(s1, k1) := step e s k in play rest s1 k1
  end.

(** The chunks that arrive in a sequence of events, in order. *)
Definition arrivals (es : list Event) : list Buffer :=
  flat_map (fun e => match e with Chunk b => [b] | Callback => [] end) es.

(** What a drain cycle on a live socket keeps. *)
Definition Conserves (c c' : CameraClient) : Prop :=
  history c' = history c /\
  totalBytesSent c' + bytesOf (audioQueue c') = totalBytesSent c + bytesOf (audioQueue c) /\
  destroyed (socket c') = destroyed (socket c) /\
  isConnected c' = isConnected c /\
  sampleRate c' = sampleRate c.

(** ** The pacer of the single-camera script *)

Module SinglePacer.

(** [SPEED_MULTIPLIER = 1.3], the binary64 number nearest to 1.3. *)
Definition SPEED_MULTIPLIER : float := 0x1.4cccccccccccdp+0%float.

(** [((totalBytesSent / bytesPerSecond) * 1000) / SPEED_MULTIPLIER >
    timeElapsed + MAX_BUFFER_AHEAD_MS]. *)
Definition tooFarAhead (totalBytesSent bytesPerSecond timeElapsed : Z) : bool :=
  PrimFloat.ltb
    (PrimFloat.add (num timeElapsed) (num MAX_BUFFER_AHEAD_MS))
    (PrimFloat.div
       (PrimFloat.mul (PrimFloat.div (num totalBytesSent) (num bytesPerSecond))
                      (num 1000))
       SPEED_MULTIPLIER).

Definition set_isThrottling (b : bool) (s : Single.State) : Single.State :=
  Single.mkState (Single.audioQueue s) (Single.startTime s) (Single.totalBytesSent s)
                 b (Single.written s).

Definition set_startTime (t : Z) (s : Single.State) : Single.State :=
  Single.mkState (Single.audioQueue s) t (Single.totalBytesSent s)
                 (Single.isThrottling s) (Single.written s).

Definition set_audioQueue (q : list Buffer) (s : Single.State) : Single.State :=
  Single.mkState q (Single.startTime s) (Single.totalBytesSent s)
                 (Single.isThrottling s) (Single.written s).

(** [sendRtspFrame(audioQueue.shift())].  On an empty queue [shift()] is
    [undefined], [Buffer.concat] throws and nothing catches it: [None]. *)
Definition sendShifted (s : Single.State) : option Single.State :=
  match Single.audioQueue s with
  | [] => None
  | b :: rest => Some (Single.sendRtspFrame b (set_audioQueue rest s))
  end.

Fixpoint burstLoop (n : nat) (s : Single.State) : option Single.State :=
  match n with
  | O => Some s
  | S m => match sendShifted s with
           | None => None
           | Some s1 => burstLoop m s1
           end
  end.

(** The part of [processQueue] after the burst block. *)
Definition maintain (rate : Z) (s : Single.State) (k : Clock)
  : option ((Single.State * option Timer) * Clock) :=
  let '(now, k1) := Date_now k in
  let timeElapsed := now - Single.startTime s in
  let bytesPerSecond := rate * 2 in
  if tooFarAhead (Single.totalBytesSent s) bytesPerSecond timeElapsed then
    Some ((s, Some (setTimeout 10)), k1)
  else
    match sendShifted s with
    | None => None
    | Some s1 => Some ((s1, Some setImmediate), k1)
    end.

(** [processQueue()], [rate] being [config.rate]; [None] is an uncaught
    exception. *)
Definition processQueue (rate : Z) (s : Single.State) (k : Clock)
  : option ((Single.State * option Timer) * Clock) :=
  let s := set_isThrottling true s in
  if (List.length (Single.audioQueue s) =? 0)%nat
  then Some ((set_isThrottling false s, None), k)
  else if Single.startTime s =? 0 then
    if Z.of_nat (List.length (Single.audioQueue s)) >? burstPackets rate then
      match burstLoop (Z.to_nat (burstPackets rate)) s with
      | None => None
      | Some s1 =>
          let '(now, k1) := Date_now k in
          maintain rate (set_startTime now s1) k1
      end
    else Some ((set_isThrottling false s, None), k)
  else maintain rate s k.

(** The loop of the ['data'] handler of [ffmpeg.stdout]: the full windows
    are pushed. *)
Fixpoint pushLoop (js : list nat) (chunk : Buffer) (q : list Buffer) : list Buffer :=
  match js with
  | [] => q
  | j :: more =>
      let i := (j * Z.to_nat CHUNK_SIZE)%nat in
      let subChunk := slice i (i + Z.to_nat CHUNK_SIZE) chunk in
      pushLoop more chunk
        (if Z.of_nat (List.length subChunk) =? CHUNK_SIZE then q ++ [subChunk] else q)
  end.

(** The ['data'] handler of [ffmpeg.stdout]. *)
Definition on_stdout_data (rate : Z) (chunk : Buffer) (s : Single.State) (k : Clock)
  : option ((Single.State * option Timer) * Clock) :=
  let s1 := set_audioQueue
              (pushLoop (loopIndices (List.length chunk)) chunk (Single.audioQueue s)) s in
  if negb (Single.isThrottling s1) then processQueue rate s1 k
  else Some ((s1, None), k).

(** Everything the script has been given to send, in order. *)
Definition history (s : Single.State) : list Buffer :=
  Single.written s ++ map rtspFrame (Single.audioQueue s).

End SinglePacer.

(** ** The command line of the multi-camera client *)

Module Cli.

(** The white space that [String.prototype.trim] removes, among the code
    units below 256 that a [string] holds: tab, line feed, vertical tab,
    form feed, carriage return, space and no-break space. *)
Definition isWhiteSpace (a : ascii) : bool :=
  existsb (Ascii.eqb a)
          [ascii_of_nat 9; ascii_of_nat 10; ascii_of_nat 11; ascii_of_nat 12;
           ascii_of_nat 13; ascii_of_nat 32; ascii_of_nat 160].

Fixpoint trimStart (s : string) : string :=
  match s with
  | EmptyString => EmptyString
  | String a rest => if isWhiteSpace a then trimStart rest else s
  end.

Fixpoint trimEnd (s : string) : string :=
  match s with
  | EmptyString => EmptyString
  | String a rest =>
      match trimEnd rest with
      | EmptyString => if isWhiteSpace a then EmptyString else String a EmptyString
      | String b t => String a (String b t)
      end
  end.

(** [s.trim()]. *)
Definition trim (s : string) : string := trimEnd (trimStart s).

(** [s.split(',')]: never empty, the pieces between the commas. *)
Fixpoint split (s : string) : list string :=
  match s with
  | EmptyString => [EmptyString]
  | String a rest =>
      if Ascii.eqb a ","%char then EmptyString :: split rest
      else match split rest with
           | [] => [String a EmptyString]
           | p :: ps => String a p :: ps
           end
  end.

(** A string is truthy when it is not empty. *)
Definition truthy (s : string) : bool :=
  match s with
  | EmptyString => false
  | String _ _ => true
  end.

(** [[...new Set(l)]]: the first occurrence of every element, in order;
    [seen] holds what the set already contains. *)
Fixpoint dedupe (seen l : list string) : list string :=
  match l with
  | [] => []
  | x :: rest =>
      if existsb (String.eqb x) seen then dedupe seen rest
      else x :: dedupe (x :: seen) rest
  end.

Record Params : Type := mkParams {
  ips : list string;
  port : float;
  file : option string;      (* [None] is [undefined] *)
  rate : float;
  volume : float;
  debug : bool
}.

(** What [parseArgs] does: it returns the parameters or ends the process
    with an exit code. *)
Inductive Outcome : Type :=
| Returns (p : Params) : Outcome
| Exits (code : Z) : Outcome.

Section ParseArgs.

(** [parseInt] and [parseFloat], applied to [args[i + 1]], which is
    [undefined] ([None]) when the flag is the last argument. *)
Variable parseInt : option string -> float.
Variable parseFloat : option string -> float.

Definition defaults : Params :=
  mkParams [] 554%float (Some "music.mp3"%string) 8000%float 0.5%float false.

(** The [--ip] case: the value is cut at the commas, the pieces are trimmed
    and the empty ones dropped. *)
Definition extractedIps (ipInput : string) : list string :=
  filter truthy (map trim (split ipInput)).

(** The [for] loop over the arguments from position [i] on. *)
Fixpoint loop (args : list string) (p : Params) : Outcome :=
  match args with
  | [] => Returns p
  | a :: rest =>
      if String.eqb a "--ip" then
        match rest with
        | [] => Returns p
        | v :: rest' =>
            loop rest'
              (if truthy v
               then mkParams (ips p ++ extractedIps v) (port p) (file p) (rate p)
                             (volume p) (debug p)
               else p)
        end
      else if String.eqb a "--port" then
        match rest with
        | [] => Returns (mkParams (ips p) (parseInt None) (file p) (rate p) (volume p) (debug p))
        | v :: rest' =>
            loop rest' (mkParams (ips p) (parseInt (Some v)) (file p) (rate p)
                                 (volume p) (debug p))
        end
      else if String.eqb a "--file" then
        match rest with
        | [] => Returns (mkParams (ips p) (port p) None (rate p) (volume p) (debug p))
        | v :: rest' =>
            loop rest' (mkParams (ips p) (port p) (Some v) (rate p) (volume p) (debug p))
        end
      else if String.eqb a "--rate" then
        match rest with
        | [] => Returns (mkParams (ips p) (port p) (file p) (parseInt None) (volume p) (debug p))
        | v :: rest' =>
            loop rest' (mkParams (ips p) (port p) (file p) (parseInt (Some v))
                                 (volume p) (debug p))
        end
      else if String.eqb a "--vol" then
        match rest with
        | [] => Returns (mkParams (ips p) (port p) (file p) (rate p) (parseFloat None) (debug p))
        | v :: rest' =>
            loop rest' (mkParams (ips p) (port p) (file p) (rate p)
                                 (parseFloat (Some v)) (debug p))
        end
      else if String.eqb a "--debug" then
        loop rest (mkParams (ips p) (port p) (file p) (rate p) (volume p) true)
      else if String.eqb a "--help" then Exits 0
      else loop rest p
  end.

(** [parseArgs()], [args] being [process.argv.slice(2)]. *)
Definition parseArgs (args : list string) : Outcome :=
  match loop args defaults with
  | Exits code => Exits code
  | Returns p =>
      if (List.length (ips p) =? 0)%nat then Exits 1
      else Returns (mkParams (dedupe [] (ips p)) (port p) (file p) (rate p)
                             (volume p) (debug p))
  end.

End ParseArgs.

(** The addresses [parseArgs] may return: not empty, trimmed, without a
    comma. *)
Definition Address (a : string) : Prop :=
  a <> EmptyString /\ trim a = a /\ ~ In ","%char (list_ascii_of_string a).

End Cli.

(** ** Sample data *)

(** A chunk of [CHUNK_SIZE] bytes, all equal to [n] modulo 256. *)
Definition chunkOf (n : nat) : Buffer :=
  repeat (byte_of_Z (Z.of_nat n)) (Z.to_nat CHUNK_SIZE).

(** The chunks numbered [a], [a + 1], ..., [a + n - 1]. *)
Definition chunksFrom (a n : nat) : list Buffer := map chunkOf (seq a n).

(** What the camera answers to the OPEN command. *)
Definition acceptance : string :=
  ("RTSP/1.0 200 OK" ++ CRLF ++ "CSeq: 8" ++ CRLF ++ CRLF)%string.

(** A client of the default configuration, as the constructor leaves it. *)
Definition idleClient : CameraClient := new_CameraClient "192.168.1.100" 554 8000.

(** The same client once the camera has accepted the OPEN command. *)
Definition streamingClient : CameraClient :=
  fst (fst (on_data acceptance (connect idleClient) (frozen 1700000000000))).

(** The streaming client with two chunks buffered before its burst. *)
Definition bufferingClient : CameraClient :=
  client (fst (feed (chunksFrom 0 2) (mkSession streamingClient []) (frozen 1700000000000))).

(** The same client after its socket was destroyed and ['close'] was
    delivered. *)
Definition closedClient : CameraClient :=
  on_close (set_socket (socket_destroy (socket bufferingClient)) bufferingClient).

(** A streaming client at sample rate 16000, where the burst is 100 chunks. *)
Definition streamingClient16k : CameraClient :=
  fst (fst (on_data acceptance (connect (new_CameraClient "192.168.1.101" 554 16000))
                    (frozen 1700000000000))).

(** 740 bytes of transcoder output: two full chunks and a remainder. *)
Definition sampleOutput : Buffer :=
  repeat x01 320 ++ repeat x02 320 ++ repeat x03 100.

(** A streaming client after its burst with 105 chunks (2100 ms) counted. *)
Definition aheadClient : CameraClient :=
  mkCameraClient "192.168.1.100" 554 8000 (mkSocket false 0 [])
                 [chunkOf 105] 1700000000000 33600 true true.

(** A streaming client after its burst whose queue has drained. *)
Definition drainedClient : CameraClient :=
  mkCameraClient "192.168.1.100" 554 8000 (mkSocket false 0 [])
                 [] 1700000000000 16320 false true.

(** * Properties *)

(** ** Frame codec *)

Lemma frameHeader_bytes : frameHeader = [x24; x02; x4c; x01].
Proof. reflexivity. Qed.

Lemma rtspFrame_unfold (chunk : Buffer) :
  rtspFrame chunk = [x24; x02; x4c; x01] ++ repeat x00 12 ++ chunk.
Proof.
  unfold rtspFrame, Buffer_concat, Buffer_alloc.
  rewrite frameHeader_bytes. simpl. now rewrite app_nil_r.
Qed.

Lemma rtspFrame_length (chunk : Buffer) :
  List.length (rtspFrame chunk) = (16 + List.length chunk)%nat.
Proof. rewrite rtspFrame_unfold. reflexivity. Qed.

(** C2. A payload of [CHUNK_SIZE] = 320 bytes is framed into 4 + 12 + 320 =
    336 bytes: byte 0 is 0x24, byte 1 is the channel 0x02, bytes 2-3 hold
    332 = [CHUNK_SIZE] + 12 low byte first (0x4c, 0x01), bytes 4-15 are
    twelve zero bytes and the payload follows unchanged; this frame is what
    [sendRtspFrame] writes to a socket that is not destroyed. *)
Theorem frame_layout (chunk : Buffer) (c : CameraClient) :
  Z.of_nat (List.length chunk) = CHUNK_SIZE ->
  destroyed (socket c) = false ->
  let f := rtspFrame chunk in
  written (socket (sendRtspFrame (Some chunk) c)) = written (socket c) ++ [f] /\
  List.length f = 336%nat /\
  nth 0 f x00 = x24 /\
  nth 1 f x00 = x02 /\
  readUInt16LE 2 f = CHUNK_SIZE + 12 /\
  nth 2 f x00 = x4c /\ nth 3 f x00 = x01 /\
  slice 4 16 f = repeat x00 12 /\
  skipn 16 f = chunk.
Proof.
  intros Hlen Hd f. subst f.
  split.
  { unfold sendRtspFrame. rewrite Hd. reflexivity. }
  split.
  { rewrite rtspFrame_length. unfold CHUNK_SIZE in Hlen. lia. }
  rewrite rtspFrame_unfold. repeat split; reflexivity.
Qed.

Lemma frame_layout_witness :
  let chunk := repeat x2a 320 in
  let c := new_CameraClient "192.168.1.100" 554 8000 in
  written (socket (sendRtspFrame (Some chunk) c)) = [rtspFrame chunk] /\
  List.length (rtspFrame chunk) = 336%nat /\
  readUInt16LE 2 (rtspFrame chunk) = 332.
Proof.
  pose proof (frame_layout (repeat x2a 320)
                (new_CameraClient "192.168.1.100" 554 8000)
                eq_refl eq_refl) as H.
  cbv zeta in H. destruct H as (Hw & Hl & _ & _ & Hr & _).
  split; [exact Hw | split; [exact Hl | exact Hr]].
Defined.

(** The single-camera script builds the same frame. *)
Lemma Single_sendRtspFrame_frame (chunk : Buffer) (s : Single.State) :
  Single.written (Single.sendRtspFrame chunk s) = Single.written s ++ [rtspFrame chunk].
Proof. reflexivity. Qed.

(** ** Control protocol *)

Section Strings.

Local Open Scope string_scope.

Lemma append_assoc' (a b c : string) : (a ++ b) ++ c = a ++ (b ++ c).
Proof. induction a as [|x a IH]; simpl; [reflexivity | now rewrite IH]. Qed.

Lemma prefix_spec (p s : string) :
  String.prefix p s = true <-> exists post, s = p ++ post.
Proof.
  revert s. induction p as [|x p IH]; intros s.
  - split; [intros _; now exists s | intros _; now destruct s].
  - destruct s as [|y s]; simpl.
    + split; [discriminate | intros [post H]; discriminate].
    + destruct (ascii_dec x y) as [->|Hxy].
      * rewrite IH. split; intros [post H]; exists post; congruence.
      * split; [discriminate | intros [post H]; congruence].
Qed.

(** [includes] finds exactly the substrings. *)
Lemma includes_spec (needle haystack : string) :
  includes needle haystack = true <->
  exists pre post, haystack = pre ++ needle ++ post.
Proof.
  induction haystack as [|a h IH].
  - cbn [includes]. destruct (String.prefix needle "") eqn:E.
    + apply prefix_spec in E. destruct E as [post E].
      split; [intros _; now exists "", post | reflexivity].
    + split; [discriminate|]. intros (pre & post & H).
      destruct pre; [|discriminate]. simpl in H.
      assert (String.prefix needle "" = true) by (apply prefix_spec; now exists post).
      congruence.
  - cbn [includes]. destruct (String.prefix needle (String a h)) eqn:E.
    + apply prefix_spec in E. destruct E as [post E].
      split; [intros _; now exists "", post | reflexivity].
    + rewrite IH. split.
      * intros (pre & post & H). exists (String a pre), post. simpl. now rewrite H.
      * intros (pre & post & H). destruct pre as [|b pre].
        -- simpl in H.
           assert (String.prefix needle (String a h) = true)
             by (apply prefix_spec; now exists post).
           congruence.
        -- simpl in H. injection H as _ H. now exists pre, post.
Qed.

(** The OPEN command of the multi-camera client, for every address: the
    request line with [/onvif1], the literal [Content-length] header, the
    OPEN content type, and the blank line at the end. *)
Lemma openCmd_format (address : string) :
  (exists rest,
      openCmd address =
      "USER_CMD_SET rtsp://" ++ address ++ "/onvif1 RTSP/1.0" ++ CRLF ++ rest) /\
  includes "CSeq: 8" (openCmd address) = true /\
  includes "Content-length: strlen(Content-type)" (openCmd address) = true /\
  includes "Content-type: AudioCtlCmd:OPEN" (openCmd address) = true /\
  (exists body, openCmd address = body ++ CRLF ++ CRLF).
Proof.
  unfold openCmd. split; [eexists; reflexivity|].
  split.
  { apply includes_spec.
    exists ("USER_CMD_SET rtsp://" ++ address ++ "/onvif1 RTSP/1.0" ++ CRLF).
    eexists. rewrite !append_assoc'. reflexivity. }
  split.
  { apply includes_spec.
    exists ("USER_CMD_SET rtsp://" ++ address ++ "/onvif1 RTSP/1.0" ++ CRLF
            ++ "CSeq: 8" ++ CRLF).
    eexists. rewrite !append_assoc'. reflexivity. }
  split.
  { apply includes_spec.
    exists ("USER_CMD_SET rtsp://" ++ address ++ "/onvif1 RTSP/1.0" ++ CRLF
            ++ "CSeq: 8" ++ CRLF
            ++ "Content-length: strlen(Content-type)" ++ CRLF).
    eexists. rewrite !append_assoc'. reflexivity. }
  exists ("USER_CMD_SET rtsp://" ++ address ++ "/onvif1 RTSP/1.0" ++ CRLF
          ++ "CSeq: 8" ++ CRLF
          ++ "Content-length: strlen(Content-type)" ++ CRLF
          ++ "Content-type: AudioCtlCmd:OPEN").
  rewrite !append_assoc'. reflexivity.
Qed.

(** C7. The single-camera script asks for [/onvif0] where the claim, the
    multi-camera client and the script's own CLOSE command have [/onvif1]:
    at the address 192.168.1.100 the request line is not the claimed one,
    while the rest of the message is as claimed. *)
Theorem Single_openCmd_onvif0 :
  Single.openCmd "192.168.1.100" =
    "USER_CMD_SET rtsp://192.168.1.100/onvif0 RTSP/1.0" ++ CRLF ++
    "CSeq: 8" ++ CRLF ++
    "Content-length: strlen(Content-type)" ++ CRLF ++
    "Content-type: AudioCtlCmd:OPEN" ++ CRLF ++ CRLF /\
  String.prefix ("USER_CMD_SET rtsp://192.168.1.100/onvif1 RTSP/1.0" ++ CRLF)
                (Single.openCmd "192.168.1.100") = false /\
  String.prefix ("USER_CMD_SET rtsp://192.168.1.100/onvif1 RTSP/1.0" ++ CRLF)
                (openCmd "192.168.1.100") = true /\
  String.prefix ("USER_CMD_SET rtsp://192.168.1.100/onvif1 RTSP/1.0" ++ CRLF)
                (Single.closeCmd "192.168.1.100") = true.
Proof. repeat split; reflexivity. Qed.

(** C8. The handshake test answers [true] exactly on the texts in which
    [CSeq: 8] occurs; a reply that carries only the closing [CSeq: 10] is
    not an acceptance. *)
Theorem isHandshakeAccepted_iff (inboundText : string) :
  (isHandshakeAccepted inboundText = true <->
   exists pre post, inboundText = pre ++ "CSeq: 8" ++ post) /\
  isHandshakeAccepted ("RTSP/1.0 200 OK" ++ CRLF ++ "CSeq: 10" ++ CRLF ++ CRLF) = false /\
  isHandshakeAccepted "CSeq: 10" = false /\
  isHandshakeAccepted ("RTSP/1.0 200 OK" ++ CRLF ++ "CSeq: 8" ++ CRLF ++ CRLF) = true.
Proof.
  split; [apply includes_spec|]. repeat split; reflexivity.
Qed.

End Strings.

(** ** The pacer *)

Lemma bytesOf_app (l1 l2 : list Buffer) : bytesOf (l1 ++ l2) = bytesOf l1 + bytesOf l2.
Proof. induction l1 as [|b l1 IH]; simpl; [reflexivity | rewrite IH; lia]. Qed.

Lemma bytesOf_chunks (l : list Buffer) :
  Forall (fun b => Z.of_nat (List.length b) = CHUNK_SIZE) l ->
  bytesOf l = CHUNK_SIZE * Z.of_nat (List.length l).
Proof.
  induction 1 as [|b l Hb _ IH]; [reflexivity|].
  cbn [bytesOf fold_right List.length]. fold (bytesOf l). rewrite IH, Hb. lia.
Qed.

(** The burst loop on a live socket: the [n] oldest chunks leave the queue,
    are framed and written in order, and their bytes are counted. *)
Lemma burstLoop_spec (n : nat) (c : CameraClient) :
  destroyed (socket c) = false ->
  (n <= List.length (audioQueue c))%nat ->
  burstLoop n c =
    mkCameraClient (ip c) (port c) (sampleRate c)
      (mkSocket false (timeoutMs (socket c))
                (written (socket c) ++ map rtspFrame (firstn n (audioQueue c))))
      (skipn n (audioQueue c))
      (startTime c)
      (totalBytesSent c + bytesOf (firstn n (audioQueue c)))
      (isThrottling c) (isConnected c).
Proof.
  revert c. induction n as [|n IH]; intros c Hd Hn.
  - destruct c as [a p r [d tm w] q st tot thr con]. simpl in *. subst d.
    now rewrite app_nil_r, Z.add_0_r.
  - destruct c as [a p r [d tm w] q st tot thr con]. simpl in *. subst d.
    destruct q as [|b q]; [simpl in Hn; lia|].
    cbn [burstLoop shift audioQueue set_audioQueue sendRtspFrame socket destroyed].
    cbv beta iota. unfold sendRtspFrame. cbn.
    rewrite IH; cbn; [|reflexivity|simpl in Hn; lia].
    rewrite <- app_assoc. cbn. f_equal. fold (bytesOf (firstn n q)). lia.
Qed.

(** A cold-start cycle that finds no more than the burst in the queue
    returns at once: nothing leaves the queue, [startTime] stays unset. *)
Lemma processQueue_buffering (c : CameraClient) (k : Clock) :
  destroyed (socket c) = false ->
  isConnected c = true ->
  startTime c = 0 ->
  Z.of_nat (List.length (audioQueue c)) <= burstPackets (sampleRate c) ->
  processQueue c k = ((set_isThrottling false c, None), k).
Proof.
  intros Hd Hc Hs Hn. unfold processQueue. rewrite Hd, Hc. cbn.
  destruct (List.length (audioQueue c) =? 0)%nat; [reflexivity|].
  rewrite Hs. cbn.
  destruct (Z.gtb_spec (Z.of_nat (List.length (audioQueue c))) (burstPackets (sampleRate c)));
    [lia | reflexivity].
Qed.

(** A cold-start cycle that finds more than the burst runs the burst loop,
    stamps [startTime], and goes on to the pacing test in the same call. *)
Lemma processQueue_burst (c : CameraClient) (k : Clock) :
  destroyed (socket c) = false ->
  isConnected c = true ->
  startTime c = 0 ->
  audioQueue c <> [] ->
  burstPackets (sampleRate c) < Z.of_nat (List.length (audioQueue c)) ->
  processQueue c k =
    maintain (set_startTime (fst (Date_now k))
                (burstLoop (Z.to_nat (burstPackets (sampleRate c)))
                           (set_isThrottling true c)))
             (snd (Date_now k)).
Proof.
  intros Hd Hc Hs Hq Hn. unfold processQueue. rewrite Hd, Hc. cbn.
  destruct (audioQueue c) as [|b q] eqn:E; [congruence|]. cbn [List.length Nat.eqb].
  rewrite Hs. cbn [Z.eqb].
  destruct (Z.gtb_spec (Z.of_nat (S (List.length q))) (burstPackets (sampleRate c)));
    [reflexivity | simpl in Hn; lia].
Qed.

(** A steady-state cycle: the pacing test alone decides. *)
Lemma processQueue_steady (c : CameraClient) (k : Clock) :
  destroyed (socket c) = false ->
  isConnected c = true ->
  startTime c <> 0 ->
  audioQueue c <> [] ->
  processQueue c k = maintain (set_isThrottling true c) k.
Proof.
  intros Hd Hc Hs Hq. unfold processQueue. rewrite Hd, Hc. cbn.
  destruct (audioQueue c) as [|b q] eqn:E; [congruence|]. cbn [List.length Nat.eqb].
  apply Z.eqb_neq in Hs. now rewrite Hs.
Qed.

(** A cycle of an emptied queue marks the pacer idle and registers nothing. *)
Lemma processQueue_idle (c : CameraClient) (k : Clock) :
  destroyed (socket c) = false ->
  isConnected c = true ->
  audioQueue c = [] ->
  processQueue c k = ((set_isThrottling false c, None), k).
Proof.
  intros Hd Hc Hq. unfold processQueue. rewrite Hd, Hc. cbn. now rewrite Hq.
Qed.

Lemma maintain_wait (c : CameraClient) (k : Clock) :
  tooFarAhead (totalBytesSent c) (sampleRate c * 2)
              (reading k (ticks k) - startTime c) = true ->
  maintain c k = ((c, Some (setTimeout 10)), snd (Date_now k)).
Proof. intros H. unfold maintain, Date_now. cbv beta iota zeta. now rewrite H. Qed.

Lemma maintain_send (c : CameraClient) (k : Clock) (b : Buffer) (q : list Buffer) :
  destroyed (socket c) = false ->
  audioQueue c = b :: q ->
  tooFarAhead (totalBytesSent c) (sampleRate c * 2)
              (reading k (ticks k) - startTime c) = false ->
  maintain c k =
    ((mkCameraClient (ip c) (port c) (sampleRate c)
        (mkSocket false (timeoutMs (socket c)) (written (socket c) ++ [rtspFrame b]))
        q (startTime c) (totalBytesSent c + Z.of_nat (List.length b))
        (isThrottling c) (isConnected c),
      Some setImmediate), snd (Date_now k)).
Proof.
  intros Hd Hq H. unfold maintain, Date_now. cbv beta iota zeta. rewrite H.
  destruct c as [a p r [d tm w] q0 st tot thr con]. cbn in *. subst d q0.
  reflexivity.
Qed.

Lemma firstn_plus {A} (n m : nat) (l : list A) :
  firstn (n + m) l = firstn n l ++ firstn m (skipn n l).
Proof.
  revert l. induction n as [|n IH]; intros l; [reflexivity|].
  destruct l as [|x l]; cbn [Nat.add firstn skipn app].
  - now rewrite firstn_nil.
  - now rewrite IH.
Qed.

(** A cold-start cycle with a burst of [n] chunks and more than [n] chunks
    queued, in full: the burst, the stamp, and the pacing step of the same
    call, which sends one chunk more unless the client is too far ahead. *)
Lemma cold_start_burst (c : CameraClient) (k : Clock) (n : nat) :
  destroyed (socket c) = false ->
  isConnected c = true ->
  startTime c = 0 ->
  burstPackets (sampleRate c) = Z.of_nat n ->
  (n < List.length (audioQueue c))%nat ->
  let q := audioQueue c in
  let ahead := tooFarAhead (totalBytesSent c + bytesOf (firstn n q))
                           (sampleRate c * 2)
                           (reading k (S (ticks k)) - reading k (ticks k)) in
  let m := if ahead then n else S n in
  processQueue c k =
    ((mkCameraClient (ip c) (port c) (sampleRate c)
        (mkSocket false (timeoutMs (socket c))
                  (written (socket c) ++ map rtspFrame (firstn m q)))
        (skipn m q)
        (reading k (ticks k))
        (totalBytesSent c + bytesOf (firstn m q))
        true true,
      Some (if ahead then setTimeout 10 else setImmediate)),
     mkClock (reading k) (S (S (ticks k)))).
Proof.
  intros Hd Hc Hs Hb Hn q ahead m.
  rewrite processQueue_burst; try assumption; try lia.
  2:{ intros E. rewrite E in Hn. simpl in Hn. lia. }
  rewrite Hb, Nat2Z.id.
  rewrite burstLoop_spec; [|exact Hd|cbn [set_isThrottling audioQueue]; lia].
  destruct c as [a p r [d tm w] q0 st tot thr con].
  cbn [set_isThrottling set_startTime ip port sampleRate socket audioQueue startTime
       totalBytesSent isThrottling isConnected timeoutMs written Date_now fst snd
       destroyed] in *.
  subst d con q m. subst ahead.
  destruct (tooFarAhead (tot + bytesOf (firstn n q0)) (r * 2)
              (reading k (S (ticks k)) - reading k (ticks k))) eqn:Ea.
  - rewrite maintain_wait; [reflexivity|exact Ea].
  - destruct (skipn n q0) as [|b q'] eqn:Eq.
    { apply (f_equal (@List.length _)) in Eq. rewrite length_skipn in Eq.
      simpl in Eq. lia. }
    rewrite (maintain_send _ _ b q'); [|reflexivity|reflexivity|exact Ea].
    cbn [set_startTime ip port sampleRate socket audioQueue startTime totalBytesSent
         isThrottling isConnected timeoutMs written Date_now fst snd reading ticks].
    replace (S n) with (n + 1)%nat by lia.
    rewrite firstn_plus, Eq. cbn [firstn].
    rewrite map_app, bytesOf_app. cbn [map bytesOf fold_right].
    rewrite <- (Nat.add_comm 1 n), <- skipn_skipn, Eq. cbn [skipn].
    rewrite <- app_assoc, Z.add_0_r, Z.add_assoc. reflexivity.
Qed.

(** C4. A steady-state cycle of a streaming client ([startTime] set, queue
    not empty, socket live) whose pacing test finds the audio sent, in
    milliseconds at [SPEED_MULTIPLIER] = 1, above the elapsed time plus
    [MAX_BUFFER_AHEAD_MS] = 2000 sends nothing: the queue, the byte counter
    and the socket are as before, the pacer stays marked busy, and the only
    effect is the 10 ms timer that will run [processQueue] again. *)
Theorem throttle_waits (c : CameraClient) (k : Clock) :
  destroyed (socket c) = false ->
  isConnected c = true ->
  startTime c <> 0 ->
  audioQueue c <> [] ->
  tooFarAhead (totalBytesSent c) (sampleRate c * 2)
              (reading k (ticks k) - startTime c) = true ->
  processQueue c k = ((set_isThrottling true c, Some (setTimeout 10)), snd (Date_now k)) /\
  audioQueue (fst (fst (processQueue c k))) = audioQueue c /\
  totalBytesSent (fst (fst (processQueue c k))) = totalBytesSent c /\
  written (socket (fst (fst (processQueue c k)))) = written (socket c) /\
  SPEED_MULTIPLIER = 1 /\ MAX_BUFFER_AHEAD_MS = 2000.
Proof.
  intros Hd Hc Hs Hq Ha.
  assert (E : processQueue c k =
              ((set_isThrottling true c, Some (setTimeout 10)), snd (Date_now k))).
  { rewrite processQueue_steady by assumption. now apply maintain_wait. }
  rewrite E. repeat split.
Qed.

(** At rate 8000, 33600 bytes are 2100 ms of audio; with no time elapsed
    since the burst the cycle waits. *)
Lemma throttle_waits_witness :
  let c := mkCameraClient "192.168.1.100" 554 8000 (mkSocket false 0 [])
             [repeat x00 320] 1700000000000 33600 true true in
  audioTimeSentAdjusted 33600 16000 = 2100%float /\
  processQueue c (frozen 1700000000000) =
    ((c, Some (setTimeout 10)), mkClock (fun _ => 1700000000000) 1).
Proof.
  split; [reflexivity|].
  refine (proj1 (throttle_waits
            (mkCameraClient "192.168.1.100" 554 8000 (mkSocket false 0 [])
               [repeat x00 320] 1700000000000 33600 true true)
            (frozen 1700000000000) eq_refl eq_refl _ _ eq_refl)).
  - discriminate.
  - discriminate.
Defined.

(** C3, as the code has it. In a cold-start cycle of a streaming client
    whose burst is 50 chunks: with 50 chunks or fewer in the queue nothing is
    dequeued or written and [startTime] stays unset; with more than 50, the
    burst loop dequeues and writes exactly the 50 oldest chunks and
    [startTime] receives the clock's reading, and the same call then runs
    the pacing test, which sends the 51st chunk as well unless it finds the
    client too far ahead. *)
Theorem cold_start_cycle (c : CameraClient) (k : Clock) :
  destroyed (socket c) = false ->
  isConnected c = true ->
  startTime c = 0 ->
  burstPackets (sampleRate c) = 50 ->
  let q := audioQueue c in
  let r := fst (fst (processQueue c k)) in
  let timer := snd (fst (processQueue c k)) in
  let ahead := tooFarAhead (totalBytesSent c + bytesOf (firstn 50 q))
                           (sampleRate c * 2)
                           (reading k (S (ticks k)) - reading k (ticks k)) in
  ((List.length q <= 50)%nat ->
   audioQueue r = q /\ startTime r = 0 /\
   written (socket r) = written (socket c) /\
   totalBytesSent r = totalBytesSent c /\ timer = None) /\
  ((50 < List.length q)%nat ->
   startTime r = reading k (ticks k) /\
   written (socket r) =
     written (socket c) ++ map rtspFrame (firstn (if ahead then 50 else 51) q) /\
   audioQueue r = skipn (if ahead then 50 else 51) q /\
   timer = Some (if ahead then setTimeout 10 else setImmediate)).
Proof.
  intros Hd Hc Hs Hb q r timer ahead. split; intros Hn.
  - subst r timer. unfold q in Hn.
    rewrite processQueue_buffering by (try assumption; rewrite Hb; lia).
    cbn [fst snd set_isThrottling audioQueue startTime socket totalBytesSent].
    rewrite Hs. repeat split.
  - subst r timer. unfold q in Hn.
    rewrite (cold_start_burst c k 50 Hd Hc Hs Hb Hn).
    cbn [fst snd audioQueue startTime socket written].
    subst ahead q. repeat split.
Qed.

Lemma cold_start_cycle_witness :
  let c := set_audioQueue (chunksFrom 0 51) streamingClient in
  let r := fst (fst (processQueue c (frozen 1700000000000))) in
  startTime r = 1700000000000 /\
  written (socket r) = written (socket c) ++ map rtspFrame (chunksFrom 0 51) /\
  audioQueue r = [].
Proof.
  pose proof (cold_start_cycle (set_audioQueue (chunksFrom 0 51) streamingClient)
                (frozen 1700000000000) eq_refl eq_refl eq_refl eq_refl) as H.
  cbv zeta in H. destruct H as [_ H].
  assert (L : (50 < List.length
                      (audioQueue (set_audioQueue (chunksFrom 0 51) streamingClient)))%nat)
    by (vm_compute; lia).
  destruct (H L) as (H1 & H2 & H3 & _).
  split; [exact H1 | split; [exact H2 | exact H3]].
Defined.

(** C3 as stated fails on the code: with 51 chunks of 320 bytes queued at
    rate 8000 (burst 50) and [startTime] unset, one call of [processQueue]
    dequeues and writes 51 chunks, not 50. *)
Lemma cold_start_51_counterexample :
  let c := set_audioQueue (chunksFrom 0 51) streamingClient in
  let r := fst (fst (processQueue c (frozen 1700000000000))) in
  destroyed (socket c) = false /\ isConnected c = true /\
  burstPackets (sampleRate c) = 50 /\ startTime c = 0 /\
  List.length (audioQueue c) = 51%nat /\
  (List.length (audioQueue c) - List.length (audioQueue r) = 51)%nat /\
  (List.length (written (socket r)) - List.length (written (socket c)) = 51)%nat /\
  (List.length (audioQueue c) - List.length (audioQueue r) <> 50)%nat /\
  startTime r = 1700000000000.
Proof. vm_compute. repeat split; discriminate. Qed.

(** ** Feeding a streaming client *)

Lemma feed_app (l1 l2 : list Buffer) (s : Session) (k : Clock) :
  feed (l1 ++ l2) s k = feed l2 (fst (feed l1 s k)) (snd (feed l1 s k)).
Proof.
  revert s k. induction l1 as [|b l1 IH]; intros s k; [reflexivity|].
  cbn [feed app]. destruct (Session_enqueue b s k) as [s1 k1]. apply IH.
Qed.

(** While the pacer is busy, [enqueue] on a connected client only appends. *)
Lemma enqueue_busy (b : Buffer) (c : CameraClient) (k : Clock) :
  isConnected c = true ->
  isThrottling c = true ->
  enqueue b c k = ((set_audioQueue (audioQueue c ++ [b]) c, None), k).
Proof.
  intros Hc Ht. unfold enqueue. cbv zeta.
  cbn [set_audioQueue isConnected isThrottling audioQueue].
  rewrite Hc. cbn [negb andb isConnected isThrottling set_audioQueue]. rewrite Hc, Ht. reflexivity.
Qed.

Lemma feed_busy (chunks : list Buffer) (c : CameraClient) (p : list Timer) (k : Clock) :
  isConnected c = true ->
  isThrottling c = true ->
  feed chunks (mkSession c p) k =
    (mkSession (set_audioQueue (audioQueue c ++ chunks) c) p, k).
Proof.
  revert c. induction chunks as [|b l IH]; intros c Hc Ht.
  - cbn [feed]. rewrite app_nil_r. now destruct c.
  - cbn [feed]. unfold Session_enqueue. cbn [client pending].
    rewrite enqueue_busy by assumption. cbn [register].
    rewrite IH by assumption.
    cbn [set_audioQueue audioQueue]. rewrite <- app_assoc. reflexivity.
Qed.

(** Before the burst, [enqueue] on a streaming client whose queue stays
    within the burst only appends: the cycle it starts returns at once. *)
Lemma enqueue_buffering (b : Buffer) (c : CameraClient) (k : Clock) :
  destroyed (socket c) = false ->
  isConnected c = true ->
  isThrottling c = false ->
  startTime c = 0 ->
  Z.of_nat (S (List.length (audioQueue c))) <= burstPackets (sampleRate c) ->
  enqueue b c k = ((set_audioQueue (audioQueue c ++ [b]) c, None), k).
Proof.
  intros Hd Hc Ht Hs Hn. unfold enqueue. cbv zeta.
  cbn [set_audioQueue isConnected isThrottling audioQueue].
  rewrite Hc. cbn [negb andb isConnected isThrottling set_audioQueue]. rewrite Hc, Ht. cbn [negb andb].
  rewrite processQueue_buffering; try assumption.
  - destruct c as [a p r sk q st tot thr con]. cbn in Ht. now subst thr.
  - cbn [set_audioQueue audioQueue sampleRate]. rewrite length_app.
    cbn [List.length]. lia.
Qed.

Lemma feed_buffering (chunks : list Buffer) (c : CameraClient) (p : list Timer) (k : Clock) :
  destroyed (socket c) = false ->
  isConnected c = true ->
  isThrottling c = false ->
  startTime c = 0 ->
  Z.of_nat (List.length (audioQueue c) + List.length chunks) <= burstPackets (sampleRate c) ->
  feed chunks (mkSession c p) k =
    (mkSession (set_audioQueue (audioQueue c ++ chunks) c) p, k).
Proof.
  revert c. induction chunks as [|b l IH]; intros c Hd Hc Ht Hs Hn.
  - cbn [feed]. rewrite app_nil_r. now destruct c.
  - cbn [feed]. unfold Session_enqueue. cbn [client pending].
    cbn [List.length] in Hn.
    rewrite enqueue_buffering by (try assumption; lia). cbn [register].
    rewrite IH; try assumption.
    + cbn [set_audioQueue audioQueue]. rewrite <- app_assoc. reflexivity.
    + cbn [set_audioQueue audioQueue sampleRate]. rewrite length_app.
      cbn [List.length]. lia.
Qed.

Lemma run_pending_idle (fuel : nat) (s : Session) (k : Clock) :
  pending s = [] -> run_pending fuel s k = (s, k).
Proof. intros H. destruct fuel; cbn [run_pending]; [reflexivity | now rewrite H]. Qed.

(** At rate 8000 and with no time elapsed, the pacing test lets the client
    send until 100 chunks (2000 ms of audio) are out. *)
Lemma within_lead (j : nat) :
  (j <= 100)%nat -> tooFarAhead (CHUNK_SIZE * Z.of_nat j) 16000 0 = false.
Proof.
  intros Hj.
  assert (H : forallb (fun i => negb (tooFarAhead (CHUNK_SIZE * Z.of_nat i) 16000 0))
                      (seq 0 101) = true) by (vm_compute; reflexivity).
  rewrite forallb_forall in H.
  specialize (H j). rewrite in_seq in H.
  apply negb_true_iff, H. lia.
Qed.

(** The callbacks of a streaming client at a standstill of the clock: one
    chunk per callback while the lead allows, then the idle mark. *)
Lemma run_steady (q : list Buffer) :
  forall (a : string) (p tm : Z) (w : list Buffer) (t : Z) (j fuel : nat) (k : Clock),
    t <> 0 ->
    (forall n, reading k n = t) ->
    Forall (fun b => Z.of_nat (List.length b) = CHUNK_SIZE) q ->
    (j + List.length q <= 100)%nat ->
    (List.length q < fuel)%nat ->
    fst (run_pending fuel
           (mkSession (mkCameraClient a p 8000 (mkSocket false tm w) q t
                                      (CHUNK_SIZE * Z.of_nat j) true true)
                      [setImmediate]) k) =
    mkSession (mkCameraClient a p 8000 (mkSocket false tm (w ++ map rtspFrame q)) [] t
                              (CHUNK_SIZE * Z.of_nat (j + List.length q)) false true)
              [].
Proof.
  induction q as [|b q IH]; intros a p tm w t j fuel k Ht Hk Hq Hj Hf.
  - destruct fuel as [|fuel]; [simpl in Hf; lia|].
    cbn [run_pending pending fire client].
    rewrite processQueue_idle by reflexivity.
    cbn [register set_isThrottling ip port sampleRate socket audioQueue startTime
         totalBytesSent isConnected].
    rewrite run_pending_idle by reflexivity.
    cbn [fst map List.length]. now rewrite app_nil_r, Nat.add_0_r.
  - destruct fuel as [|fuel]; [simpl in Hf; lia|].
    cbn [run_pending pending fire client].
    rewrite processQueue_steady; [|reflexivity|reflexivity|exact Ht|discriminate].
    rewrite (maintain_send _ _ b q); [|reflexivity|reflexivity|].
    2:{ cbn [set_isThrottling totalBytesSent sampleRate startTime].
        rewrite Hk, Z.sub_diag. change (8000 * 2) with 16000.
        apply within_lead. cbn [List.length] in Hj. lia. }
    cbn [register app set_isThrottling ip port sampleRate socket audioQueue startTime
         totalBytesSent isThrottling isConnected timeoutMs written snd Date_now].
    inversion Hq as [|? ? Hb Hq']; subst.
    rewrite Hb.
    replace (CHUNK_SIZE * Z.of_nat j + CHUNK_SIZE) with (CHUNK_SIZE * Z.of_nat (S j)) by lia.
    rewrite (IH a p tm (w ++ [rtspFrame b]) t (S j) fuel); try assumption.
    + cbn [map List.length]. rewrite <- app_assoc.
      replace (S j + List.length q)%nat with (j + S (List.length q))%nat by lia.
      reflexivity.
    + cbn [List.length] in Hj. lia.
    + cbn [List.length] in Hf. lia.
Qed.

(** On a connected client whose pacer is idle, [enqueue] appends and runs
    a drain cycle. *)
Lemma enqueue_wakes (b : Buffer) (c : CameraClient) (k : Clock) :
  isConnected c = true ->
  isThrottling c = false ->
  enqueue b c k = processQueue (set_audioQueue (audioQueue c ++ [b]) c) k.
Proof.
  intros Hc Ht. unfold enqueue. cbv zeta.
  cbn [set_audioQueue isConnected isThrottling audioQueue].
  rewrite Hc. cbn [negb andb isConnected isThrottling set_audioQueue].
  rewrite Hc, Ht. reflexivity.
Qed.

(** C1, as the code has it. At sample rate 8000 and chunk size 320 the
    burst is floor(8000 * 2 / 320) = 50 chunks, one second of audio. A
    streaming client that has sent nothing yet and is fed exactly 100 chunks
    while the clock stands still writes nothing during the first 50
    [enqueue] calls; the 51st call bursts the 50 oldest chunks and sends the
    51st by the pacing step of the same call; the other 49 are queued behind
    a [setImmediate] callback and go out one per callback, so that all 100
    frames are written in order; the callback after the last one finds the
    queue empty, marks the pacer idle and registers nothing, so nothing
    more is sent until [enqueue] is called again. *)
Theorem end_to_end_100_chunks (c : CameraClient) (chunks : list Buffer) (k : Clock) (t : Z) :
  sampleRate c = 8000 ->
  destroyed (socket c) = false ->
  isConnected c = true ->
  isThrottling c = false ->
  audioQueue c = [] ->
  startTime c = 0 ->
  totalBytesSent c = 0 ->
  List.length chunks = 100%nat ->
  Forall (fun b => Z.of_nat (List.length b) = CHUNK_SIZE) chunks ->
  t <> 0 ->
  (forall n, reading k n = t) ->
  let half := fst (feed (firstn 50 chunks) (mkSession c []) k) in
  let fed := feed chunks (mkSession c []) k in
  burstPackets (sampleRate c) = (sampleRate c * 2) / CHUNK_SIZE /\
  burstPackets (sampleRate c) = 50 /\
  written (socket (client half)) = written (socket c) /\
  pending half = [] /\
  written (socket (client (fst fed))) =
    written (socket c) ++ map rtspFrame (firstn 51 chunks) /\
  audioQueue (client (fst fed)) = skipn 51 chunks /\
  pending (fst fed) = [setImmediate] /\
  forall fuel, (50 <= fuel)%nat ->
    let done := fst (run_pending fuel (fst fed) (snd fed)) in
    written (socket (client done)) = written (socket c) ++ map rtspFrame chunks /\
    audioQueue (client done) = [] /\
    pending done = [] /\
    isThrottling (client done) = false /\
    totalBytesSent (client done) = 32000.
Proof.
  intros Hr Hd Hc Ht Hq Hs Htot Hlen Hall Hnz Hk half fed.
  destruct c as [a p r [d tm w] q st tot thr con].
  cbn [sampleRate socket destroyed isConnected isThrottling audioQueue startTime
       totalBytesSent written] in *.
  subst r d con thr q st tot.
  split; [reflexivity|]. split; [reflexivity|].
  (* the chunks: fifty, one, forty-nine *)
  set (l50 := firstn 50 chunks) in *.
  assert (L50 : List.length l50 = 50%nat) by (unfold l50; rewrite length_firstn; lia).
  destruct (skipn 50 chunks) as [|b l49] eqn:E.
  { apply (f_equal (@List.length _)) in E. rewrite length_skipn in E. simpl in E. lia. }
  assert (L49 : List.length l49 = 49%nat).
  { apply (f_equal (@List.length _)) in E. rewrite length_skipn in E. simpl in E. lia. }
  assert (Ec : chunks = l50 ++ [b] ++ l49).
  { rewrite <- (firstn_skipn 50 chunks). fold l50. now rewrite E. }
  assert (H50 : Forall (fun b => Z.of_nat (List.length b) = CHUNK_SIZE) l50).
  { rewrite Ec in Hall. now apply Forall_app in Hall. }
  assert (H49 : Forall (fun b => Z.of_nat (List.length b) = CHUNK_SIZE) l49).
  { rewrite Ec in Hall. apply Forall_app in Hall. destruct Hall as [_ Hall].
    now inversion Hall. }
  assert (Hb : Z.of_nat (List.length b) = CHUNK_SIZE).
  { rewrite Ec in Hall. apply Forall_app in Hall. destruct Hall as [_ Hall].
    now inversion Hall. }
  (* the first fifty are buffered *)
  assert (F50 : feed l50 (mkSession (mkCameraClient a p 8000 (mkSocket false tm w)
                                       [] 0 0 false true) []) k =
                (mkSession (mkCameraClient a p 8000 (mkSocket false tm w)
                              l50 0 0 false true) [], k)).
  { rewrite feed_buffering; try reflexivity.
    cbn [audioQueue sampleRate List.length]. rewrite L50. vm_compute. discriminate. }
  (* the fifty-first starts the burst *)
  assert (F51 : feed (l50 ++ [b])
                  (mkSession (mkCameraClient a p 8000 (mkSocket false tm w)
                                [] 0 0 false true) []) k =
                (mkSession (mkCameraClient a p 8000
                              (mkSocket false tm (w ++ map rtspFrame (l50 ++ [b])))
                              [] t (CHUNK_SIZE * 51) true true) [setImmediate],
                 mkClock (reading k) (S (S (ticks k))))).
  { rewrite feed_app, F50. cbn [fst snd feed]. unfold Session_enqueue.
    cbn [client pending].
    rewrite enqueue_wakes by reflexivity.
    unfold set_audioQueue.
    cbn [ip port sampleRate socket audioQueue startTime
         totalBytesSent isThrottling isConnected].
    rewrite (cold_start_burst _ k 50); try reflexivity.
    2:{ cbn [audioQueue]. rewrite length_app, L50. simpl. lia. }
    cbn [ip port sampleRate socket audioQueue startTime totalBytesSent
         timeoutMs written].
    rewrite !Hk, Z.sub_diag.
    replace (firstn 50 (l50 ++ [b])) with l50.
    2:{ rewrite (firstn_app 50), L50, Nat.sub_diag, firstn_O, app_nil_r.
        symmetry. apply firstn_all2. lia. }
    rewrite (bytesOf_chunks l50 H50), L50, Z.add_0_l.
    change (8000 * 2) with 16000.
    rewrite (within_lead 50) by lia.
    replace (firstn 51 (l50 ++ [b])) with (l50 ++ [b])
      by (symmetry; apply firstn_all2; rewrite length_app, L50; simpl; lia).
    replace (skipn 51 (l50 ++ [b])) with (@nil Buffer)
      by (symmetry; apply skipn_all2; rewrite length_app, L50; simpl; lia).
    rewrite bytesOf_chunks
      by (apply Forall_app; split; [exact H50 | constructor; [exact Hb | constructor]]).
    rewrite length_app, L50. cbn [register app]. reflexivity. }
  (* the last forty-nine wait behind the callback *)
  assert (F100 : fed =
                (mkSession (mkCameraClient a p 8000
                              (mkSocket false tm (w ++ map rtspFrame (l50 ++ [b])))
                              l49 t (CHUNK_SIZE * 51) true true) [setImmediate],
                 mkClock (reading k) (S (S (ticks k))))).
  { unfold fed. rewrite Ec, app_assoc, feed_app, F51. cbn [fst snd].
    rewrite feed_busy by reflexivity. reflexivity. }
  assert (E51 : firstn 51 chunks = l50 ++ [b]).
  { change 51%nat with (50 + 1)%nat. rewrite firstn_plus. fold l50. now rewrite E. }
  assert (S51 : skipn 51 chunks = l49).
  { change 51%nat with (1 + 50)%nat. rewrite <- skipn_skipn, E. reflexivity. }
  split.
  { unfold half. rewrite F50. reflexivity. }
  split.
  { unfold half. rewrite F50. reflexivity. }
  rewrite F100. cbn [fst snd client pending socket written audioQueue].
  rewrite E51, S51.
  split; [reflexivity|]. split; [reflexivity|]. split; [reflexivity|].
  intros fuel Hfuel.
  change (CHUNK_SIZE * 51) with (CHUNK_SIZE * Z.of_nat 51).
  rewrite (run_steady l49 a p tm _ t 51 fuel); try assumption; try lia.
  cbn [client pending socket written audioQueue isThrottling totalBytesSent].
  rewrite L49, <- app_assoc, <- map_app, <- app_assoc, <- Ec.
  repeat split.
Qed.

Lemma chunksFrom_sized (a n : nat) :
  Forall (fun b => Z.of_nat (List.length b) = CHUNK_SIZE) (chunksFrom a n).
Proof.
  apply Forall_forall. intros b Hb. unfold chunksFrom in Hb.
  apply in_map_iff in Hb. destruct Hb as (i & <- & _).
  unfold chunkOf. now rewrite repeat_length.
Qed.

Lemma end_to_end_100_chunks_witness :
  let fed := feed (chunksFrom 0 100) (mkSession streamingClient []) (frozen 1700000000000) in
  let done := fst (run_pending 50 (fst fed) (snd fed)) in
  burstPackets 8000 = 50 /\
  written (socket (client (fst fed))) =
    written (socket streamingClient) ++ map rtspFrame (firstn 51 (chunksFrom 0 100)) /\
  written (socket (client done)) =
    written (socket streamingClient) ++ map rtspFrame (chunksFrom 0 100) /\
  audioQueue (client done) = [] /\
  pending done = [].
Proof.
  pose proof (end_to_end_100_chunks streamingClient (chunksFrom 0 100)
                (frozen 1700000000000) 1700000000000
                eq_refl eq_refl eq_refl eq_refl eq_refl eq_refl eq_refl eq_refl
                (chunksFrom_sized 0 100)) as H.
  assert (Hnz : 1700000000000 <> 0) by discriminate.
  specialize (H Hnz (fun _ => eq_refl)). cbv zeta in H.
  destruct H as (_ & Hb & _ & _ & Hfed & _ & _ & Hrun).
  destruct (Hrun 50%nat (le_n 50)) as (Hw & Hq & Hp & _).
  split; [exact Hb|]. split; [exact Hfed|]. split; [exact Hw|].
  split; [exact Hq | exact Hp].
Defined.

(** C1 as stated fails on the code: the burst at rate 8000 is 50 chunks, not
    100; a streaming client fed exactly 100 chunks has written 51 frames
    when the last [enqueue] returns (the burst of 50 and one more), with 49
    chunks still queued, and a cold-start cycle that finds exactly 100
    chunks in the queue writes 51 of them. At rate 16000, where the burst
    is 100 chunks, exactly 100 chunks do not start the burst at all. *)
Lemma burst_100_counterexample :
  let fed := fst (feed (chunksFrom 0 100) (mkSession streamingClient [])
                       (frozen 1700000000000)) in
  let c100 := set_audioQueue (chunksFrom 0 100) streamingClient in
  let r := fst (fst (processQueue c100 (frozen 1700000000000))) in
  burstPackets 8000 = 50 /\
  burstPackets 8000 <> 100 /\
  (List.length (written (socket (client fed)))
   - List.length (written (socket streamingClient)) = 51)%nat /\
  List.length (audioQueue (client fed)) = 49%nat /\
  (List.length (written (socket r)) - List.length (written (socket c100)) = 51)%nat /\
  (List.length (written (socket r)) - List.length (written (socket c100)) <> 100)%nat /\
  burstPackets 16000 = 100 /\
  written (socket (client (fst (feed (chunksFrom 0 100) (mkSession streamingClient16k [])
                                     (frozen 1700000000000))))) =
    written (socket streamingClient16k).
Proof. vm_compute. repeat split; discriminate. Qed.

(** ** The queue of a client that is not connected *)

(** [enqueue] on a client that is not connected: the chunk is appended, the
    bound is applied, the pacer is not run and the clock is not read. *)
Lemma enqueue_disconnected (b : Buffer) (c : CameraClient) (k : Clock) :
  isConnected c = false ->
  enqueue b c k = ((set_audioQueue (keepBound (audioQueue c ++ [b])) c, None), k).
Proof.
  intros Hc. unfold enqueue, keepBound. cbv zeta.
  cbn [set_audioQueue isConnected audioQueue]. rewrite Hc. cbn [negb andb].
  destruct (MAX_QUEUE_WHILE_DISCONNECTED <? Z.of_nat (List.length (audioQueue c ++ [b]))).
  - unfold shift. cbn [set_audioQueue audioQueue].
    destruct (audioQueue c ++ [b]) as [|x rest] eqn:E.
    + destruct (audioQueue c); discriminate.
    + cbn [snd set_audioQueue isConnected tl ip port sampleRate socket startTime
           totalBytesSent isThrottling].
      rewrite Hc. reflexivity.
  - cbn [set_audioQueue isConnected]. rewrite Hc. reflexivity.
Qed.

Lemma feed_disconnected (chunks : list Buffer) (c : CameraClient) (p : list Timer) (k : Clock) :
  isConnected c = false ->
  feed chunks (mkSession c p) k =
    (mkSession (set_audioQueue (retained (audioQueue c) chunks) c) p, k).
Proof.
  revert c. induction chunks as [|b l IH]; intros c Hc.
  - cbn [feed retained fold_left]. now destruct c.
  - cbn [feed]. unfold Session_enqueue. cbn [client pending].
    rewrite enqueue_disconnected by assumption. cbn [register].
    rewrite IH by assumption. reflexivity.
Qed.

Lemma keepBound_length (q : list Buffer) :
  Z.of_nat (List.length (keepBound q)) <=
  Z.max (Z.of_nat (List.length q) - 1) MAX_QUEUE_WHILE_DISCONNECTED.
Proof.
  unfold keepBound.
  destruct (Z.ltb_spec MAX_QUEUE_WHILE_DISCONNECTED (Z.of_nat (List.length q))).
  - destruct q; cbn [tl List.length] in *;
      unfold MAX_QUEUE_WHILE_DISCONNECTED in *; lia.
  - lia.
Qed.

(** Whatever the queue held, enqueuing while not connected never makes it
    longer than the larger of its length and the bound. *)
Lemma retained_length (chunks q : list Buffer) :
  Z.of_nat (List.length (retained q chunks)) <=
  Z.max (Z.of_nat (List.length q)) MAX_QUEUE_WHILE_DISCONNECTED.
Proof.
  revert q. induction chunks as [|b l IH]; intros q; cbn [retained fold_left].
  - lia.
  - pose proof (keepBound_length (q ++ [b])) as Hk.
    rewrite length_app in Hk. cbn [List.length] in Hk.
    eapply Z.le_trans; [apply (IH (keepBound (q ++ [b])))|]. lia.
Qed.

(** From a queue within the bound, what is retained is the most recent
    [MAX_QUEUE_WHILE_DISCONNECTED] chunks of everything enqueued. *)
Lemma retained_recent (chunks q : list Buffer) :
  Z.of_nat (List.length q) <= MAX_QUEUE_WHILE_DISCONNECTED ->
  retained q chunks =
  skipn (List.length (q ++ chunks) - Z.to_nat MAX_QUEUE_WHILE_DISCONNECTED) (q ++ chunks).
Proof.
  revert q. induction chunks as [|b l IH]; intros q Hq; cbn [retained fold_left].
  - rewrite app_nil_r.
    replace (List.length q - Z.to_nat MAX_QUEUE_WHILE_DISCONNECTED)%nat with 0%nat by lia.
    reflexivity.
  - pose proof (keepBound_length (q ++ [b])) as Hk.
    rewrite length_app in Hk. cbn [List.length] in Hk.
    change (fold_left (fun acc b0 => keepBound (acc ++ [b0])) l (keepBound (q ++ [b])))
      with (retained (keepBound (q ++ [b])) l).
    rewrite IH by lia.
    unfold keepBound.
    destruct (Z.ltb_spec MAX_QUEUE_WHILE_DISCONNECTED (Z.of_nat (List.length (q ++ [b]))))
      as [Hlt|Hge].
    + rewrite length_app in Hlt. cbn [List.length] in Hlt.
      destruct q as [|x q']; [cbn in Hlt; unfold MAX_QUEUE_WHILE_DISCONNECTED in Hlt; lia|].
      cbn [app tl]. rewrite <- !app_assoc. cbn [app List.length].
      assert (Hl : (Z.to_nat MAX_QUEUE_WHILE_DISCONNECTED <= List.length (q' ++ b :: l))%nat)
        by (rewrite length_app; cbn [List.length] in *; lia).
      replace (S (List.length (q' ++ b :: l)) - Z.to_nat MAX_QUEUE_WHILE_DISCONNECTED)%nat
        with (S (List.length (q' ++ b :: l) - Z.to_nat MAX_QUEUE_WHILE_DISCONNECTED))
        by lia.
      reflexivity.
    + now rewrite <- app_assoc.
Qed.

(** A client that was never accepted is not connected and its queue is
    within the bound. *)
Lemma NotYetStreaming_bounded (c : CameraClient) :
  NotYetStreaming c ->
  isConnected c = false /\
  Z.of_nat (List.length (audioQueue c)) <= MAX_QUEUE_WHILE_DISCONNECTED.
Proof.
  induction 1 as [a p r|c _ IH|c chunk k _ IH|c data k _ IH Hd
                  |c _ IH|c _ IH|c _ IH|c w _ IH|c _ IH].
  - split; [reflexivity | cbn; unfold MAX_QUEUE_WHILE_DISCONNECTED; lia].
  - exact IH.
  - destruct IH as [Hc Hq]. rewrite enqueue_disconnected by assumption.
    cbn [fst set_audioQueue isConnected audioQueue]. split; [exact Hc|].
    pose proof (keepBound_length (audioQueue c ++ [chunk])) as Hk.
    rewrite length_app in Hk. cbn [List.length] in Hk. lia.
  - unfold on_data. rewrite Hd. exact IH.
  - split; [reflexivity | cbn; unfold MAX_QUEUE_WHILE_DISCONNECTED; lia].
  - split; [reflexivity | exact (proj2 IH)].
  - split; [reflexivity | exact (proj2 IH)].
  - unfold stop. destruct w; exact IH.
  - exact IH.
Qed.

(** C5. A client that the camera has not accepted yet is not connected and
    holds at most [MAX_QUEUE_WHILE_DISCONNECTED] = 50000 chunks, and so it
    stays whatever is enqueued: its queue is then the most recent 50000 of
    the chunks it held and received; after 50001 chunks enqueued into an
    empty queue it holds exactly 50000 chunks, all but the oldest one. *)
Theorem disconnected_queue_bound (chunks : list Buffer) (s : Session) (k : Clock) :
  NotYetStreaming (client s) ->
  let s' := fst (feed chunks s k) in
  let all := audioQueue (client s) ++ chunks in
  MAX_QUEUE_WHILE_DISCONNECTED = 50000 /\
  Z.of_nat (List.length (audioQueue (client s))) <= MAX_QUEUE_WHILE_DISCONNECTED /\
  NotYetStreaming (client s') /\
  isConnected (client s') = false /\
  Z.of_nat (List.length (audioQueue (client s'))) <= MAX_QUEUE_WHILE_DISCONNECTED /\
  audioQueue (client s') =
    skipn (List.length all - Z.to_nat MAX_QUEUE_WHILE_DISCONNECTED) all /\
  (audioQueue (client s) = [] ->
   Z.of_nat (List.length chunks) = MAX_QUEUE_WHILE_DISCONNECTED + 1 ->
   Z.of_nat (List.length (audioQueue (client s'))) = MAX_QUEUE_WHILE_DISCONNECTED /\
   audioQueue (client s') = tl chunks).
Proof.
  intros Hn s' all. destruct (NotYetStreaming_bounded _ Hn) as [Hc Hq].
  assert (Hn' : NotYetStreaming (client s')).
  { subst s'. clear Hc Hq all. revert s k Hn.
    induction chunks as [|b l IH]; intros s k Hn; [exact Hn|].
    cbn [feed]. destruct (Session_enqueue b s k) as [s1 k1] eqn:E.
    apply IH. unfold Session_enqueue in E.
    pose proof (N_enqueue (client s) b k Hn) as H1.
    destruct (enqueue b (client s) k) as [[c1 t1] k1']. cbn [fst] in H1.
    injection E as <- _. exact H1. }
  destruct (NotYetStreaming_bounded _ Hn') as [Hc' Hq'].
  split; [reflexivity|]. split; [exact Hq|]. split; [exact Hn'|].
  split; [exact Hc'|]. split; [exact Hq'|].
  destruct s as [c p]. cbn [client] in *.
  subst s'. rewrite feed_disconnected by assumption.
  cbn [fst client set_audioQueue audioQueue].
  split; [now apply retained_recent|].
  intros He Hl. rewrite retained_recent by assumption. subst all. rewrite He in *.
  cbn [app] in *.
  replace (List.length chunks - Z.to_nat MAX_QUEUE_WHILE_DISCONNECTED)%nat with 1%nat
    by (unfold MAX_QUEUE_WHILE_DISCONNECTED in *; lia).
  split.
  - rewrite length_skipn. unfold MAX_QUEUE_WHILE_DISCONNECTED in *. lia.
  - now destruct chunks.
Qed.

Lemma disconnected_queue_bound_witness :
  let s' := fst (feed (chunksFrom 0 (Z.to_nat 50001)) (mkSession idleClient []) (frozen 1700000000000)) in
  Z.of_nat (List.length (audioQueue (client s'))) = 50000 /\
  audioQueue (client s') = tl (chunksFrom 0 (Z.to_nat 50001)).
Proof.
  pose proof (disconnected_queue_bound (chunksFrom 0 (Z.to_nat 50001)) (mkSession idleClient [])
                (frozen 1700000000000) (N_new "192.168.1.100" 554 8000)) as H.
  cbv zeta in H. destruct H as (_ & _ & _ & _ & _ & _ & H).
  apply H; [reflexivity|].
  unfold chunksFrom. rewrite length_map, length_seq. vm_compute. reflexivity.
Defined.

(** ** After an error or a close *)

(** C6, as the code has it. The ['error'] and ['close'] handlers only mark
    the client as not connected. Every later [enqueue] still appends its
    chunk, the oldest chunk being dropped once the queue exceeds 50000
    chunks, so that the queue never grows beyond the larger of 50000 and
    its length after the event; the pacer is not run, the clock is not
    read, no timer is registered, nothing is written to the socket and no
    byte is counted. *)
Theorem after_close_enqueue (c : CameraClient) (p : list Timer) (chunks : list Buffer) (k : Clock) :
  let closed := on_close c in
  let r := feed chunks (mkSession closed p) k in
  on_error c = closed /\
  isConnected closed = false /\
  r = (mkSession (set_audioQueue (retained (audioQueue closed) chunks) closed) p, k) /\
  isConnected (client (fst r)) = false /\
  written (socket (client (fst r))) = written (socket closed) /\
  totalBytesSent (client (fst r)) = totalBytesSent closed /\
  Z.of_nat (List.length (audioQueue (client (fst r)))) <=
    Z.max (Z.of_nat (List.length (audioQueue closed))) MAX_QUEUE_WHILE_DISCONNECTED /\
  (Z.of_nat (List.length (audioQueue closed ++ chunks)) <= MAX_QUEUE_WHILE_DISCONNECTED ->
   audioQueue (client (fst r)) = audioQueue closed ++ chunks).
Proof.
  intros closed r.
  assert (Hc : isConnected closed = false) by reflexivity.
  assert (Hr : r = (mkSession (set_audioQueue (retained (audioQueue closed) chunks) closed) p, k))
    by (unfold r; now rewrite feed_disconnected).
  split; [reflexivity|]. split; [exact Hc|]. split; [exact Hr|].
  rewrite Hr. cbn [fst client].
  split; [reflexivity|]. split; [reflexivity|]. split; [reflexivity|].
  split.
  - apply retained_length.
  - intros Hn.
    change (audioQueue (set_audioQueue (retained (audioQueue closed) chunks) closed))
      with (retained (audioQueue closed) chunks).
    rewrite retained_recent by (rewrite length_app in Hn; lia).
    replace (List.length (audioQueue closed ++ chunks)
             - Z.to_nat MAX_QUEUE_WHILE_DISCONNECTED)%nat with 0%nat by lia.
    reflexivity.
Qed.

(** C6 as stated fails on the code: a client with two chunks queued whose
    socket was destroyed and closed keeps both chunks, and the next
    [enqueue] makes the queue one chunk longer. *)
Lemma enqueue_after_close_counterexample :
  let after := fst (fst (enqueue (chunkOf 2) closedClient (frozen 1700000000000))) in
  destroyed (socket closedClient) = true /\
  isConnected closedClient = false /\
  audioQueue closedClient = chunksFrom 0 2 /\
  audioQueue (on_error bufferingClient) = chunksFrom 0 2 /\
  audioQueue after = chunksFrom 0 3 /\
  (List.length (audioQueue closedClient) < List.length (audioQueue after))%nat /\
  after <> closedClient.
Proof.
  cbv zeta.
  assert (E : audioQueue (fst (fst (enqueue (chunkOf 2) closedClient (frozen 1700000000000))))
              = chunksFrom 0 3) by (vm_compute; reflexivity).
  assert (E0 : audioQueue closedClient = chunksFrom 0 2) by (vm_compute; reflexivity).
  split; [reflexivity|]. split; [reflexivity|]. split; [exact E0|].
  split; [vm_compute; reflexivity|]. split; [exact E|].
  split; [rewrite E, E0; vm_compute; lia|].
  intros H. rewrite H in E. rewrite E0 in E.
  apply (f_equal (@List.length _)) in E. vm_compute in E. discriminate.
Qed.

(** ** Fan-out *)

(** Two [enqueue] calls on a holding client with an empty queue leave the
    two chunks in its queue, in order, and read no clock. *)
Lemma enqueue_twice_holding (c : CameraClient) (c1 c2 : Buffer) (k k' : Clock) :
  audioQueue c = [] ->
  Holding c ->
  enqueue c1 c k = ((set_audioQueue [c1] c, None), k) /\
  enqueue c2 (set_audioQueue [c1] c) k' = ((set_audioQueue [c1; c2] c, None), k').
Proof.
  intros Hq Hh.
  destruct (isConnected c) eqn:Hc.
  - destruct (isThrottling c) eqn:Ht.
    + split.
      * rewrite enqueue_busy by assumption. now rewrite Hq.
      * rewrite enqueue_busy by assumption. reflexivity.
    + destruct (Hh Hc Ht) as (Hd & Hs & Hb). split.
      * rewrite enqueue_buffering;
          [now rewrite Hq | exact Hd | exact Hc | exact Ht | exact Hs |].
        rewrite Hq. cbn [List.length]. lia.
      * rewrite enqueue_buffering;
          [reflexivity | exact Hd | exact Hc | exact Ht | exact Hs |].
        cbn [set_audioQueue audioQueue sampleRate List.length]. lia.
  - split.
    + rewrite enqueue_disconnected by assumption. now rewrite Hq.
    + rewrite enqueue_disconnected by assumption. reflexivity.
Qed.

Lemma loopIndices_two_chunks (len : nat) :
  (640 <= len < 960)%nat ->
  loopIndices len = [0; 1]%nat \/ (640 < len)%nat /\ loopIndices len = [0; 1; 2]%nat.
Proof.
  intros H. unfold loopIndices. change (Z.to_nat CHUNK_SIZE) with 320%nat.
  destruct (Nat.eq_dec len 640) as [->|Hne].
  - left. reflexivity.
  - right. split; [lia|].
    replace ((len + (320 - 1)) / 320)%nat with 3%nat; [reflexivity|].
    apply (Nat.div_unique _ _ _ (len + 319 - 960)); lia.
Qed.

Lemma fanOutLoop_app (js1 js2 : list nat) (data : Buffer) (cl : list Session) (k : Clock) :
  fanOutLoop (js1 ++ js2) data cl k =
  fanOutLoop js2 data (fst (fanOutLoop js1 data cl k)) (snd (fanOutLoop js1 data cl k)).
Proof.
  revert cl k. induction js1 as [|j js1 IH]; intros cl k; [reflexivity|].
  cbn [app fanOutLoop].
  match goal with
  | |- context [if ?t then ?x else ?y] => destruct (if t then x else y) as [cl1 k1]
  end.
  apply IH.
Qed.

(** C9. A block of transcoder output that holds two full chunks (640
    bytes, or up to 959 with a short remainder) makes the fan-out call
    [enqueue] exactly twice on each of two sessions, in whatever state they
    are: first with bytes 0-319 on both, then with bytes 320-639 on both,
    the remainder being dropped; each session that holds (not connected,
    or busy, or connected before its burst) and had an empty queue then has
    exactly these two chunks queued, the same bytes in both sessions. *)
Theorem fan_out_two_sessions (data : Buffer) (a b : Session) (k : Clock) :
  (640 <= List.length data < 960)%nat ->
  let c1 := firstn 320 data in
  let c2 := firstn 320 (skipn 320 data) in
  let r1 := Session_enqueue c1 a k in
  let r2 := Session_enqueue c1 b (snd r1) in
  let r3 := Session_enqueue c2 (fst r1) (snd r2) in
  let r4 := Session_enqueue c2 (fst r2) (snd r3) in
  on_stdout_data data [a; b] k = ([fst r3; fst r4], snd r4) /\
  c1 ++ c2 = firstn 640 data /\
  List.length c1 = 320%nat /\ List.length c2 = 320%nat /\
  (audioQueue (client a) = [] -> Holding (client a) ->
   audioQueue (client (fst r3)) = [c1; c2]) /\
  (audioQueue (client b) = [] -> Holding (client b) ->
   audioQueue (client (fst r4)) = [c1; c2]).
Proof.
  intros Hlen c1 c2 r1 r2 r3 r4.
  assert (L1 : List.length c1 = 320%nat) by (unfold c1; rewrite length_firstn; lia).
  assert (L2 : List.length c2 = 320%nat)
    by (unfold c2; rewrite length_firstn, length_skipn; lia).
  assert (Hstep : on_stdout_data data [a; b] k = ([fst r3; fst r4], snd r4)).
  { unfold on_stdout_data.
    assert (S0 : slice (0 * Z.to_nat CHUNK_SIZE) (0 * Z.to_nat CHUNK_SIZE + Z.to_nat CHUNK_SIZE)
                       data = c1) by reflexivity.
    assert (S1 : slice (1 * Z.to_nat CHUNK_SIZE) (1 * Z.to_nat CHUNK_SIZE + Z.to_nat CHUNK_SIZE)
                       data = c2) by reflexivity.
    assert (T1 : (Z.of_nat (List.length c1) =? CHUNK_SIZE) = true)
      by (rewrite L1; reflexivity).
    assert (T2 : (Z.of_nat (List.length c2) =? CHUNK_SIZE) = true)
      by (rewrite L2; reflexivity).
    assert (Two : fanOutLoop [0; 1]%nat data [a; b] k = ([fst r3; fst r4], snd r4)).
    { cbn [fanOutLoop]. rewrite S0, S1, T1, T2.
      cbn [forEach_enqueue]. subst r4 r3 r2 r1.
      destruct (Session_enqueue c1 a k) as [a1 k1]. cbn [fst snd].
      destruct (Session_enqueue c1 b k1) as [b1 k2]. cbn [fst snd forEach_enqueue].
      destruct (Session_enqueue c2 a1 k2) as [a2 k3]. cbn [fst snd].
      destruct (Session_enqueue c2 b1 k3) as [b2 k4]. reflexivity. }
    destruct (loopIndices_two_chunks _ Hlen) as [-> | [Hgt ->]]; [exact Two|].
    change [0; 1; 2]%nat with ([0; 1] ++ [2])%nat.
    rewrite fanOutLoop_app, Two. cbn [fst snd fanOutLoop].
    assert (Short : (Z.of_nat (List.length
                      (slice (2 * Z.to_nat CHUNK_SIZE)
                             (2 * Z.to_nat CHUNK_SIZE + Z.to_nat CHUNK_SIZE) data))
                     =? CHUNK_SIZE) = false).
    { apply Z.eqb_neq. unfold slice. change (Z.to_nat CHUNK_SIZE) with 320%nat.
      rewrite length_firstn, length_skipn. unfold CHUNK_SIZE. lia. }
    rewrite Short. reflexivity. }
  split; [exact Hstep|].
  split.
  { unfold c1, c2. change 640%nat with (320 + 320)%nat. now rewrite firstn_plus. }
  split; [exact L1|]. split; [exact L2|].
  split.
  - intros Hq Hh. destruct a as [ca pa]. cbn [client] in *.
    destruct (enqueue_twice_holding ca c1 c2 k (snd r2) Hq Hh) as [E1 E2].
    subst r3 r1. unfold Session_enqueue at 2. cbn [client pending].
    rewrite E1. cbn [fst snd register].
    unfold Session_enqueue at 1. cbn [client pending]. rewrite E2. reflexivity.
  - intros Hq Hh. destruct b as [cb pb]. cbn [client] in *.
    destruct (enqueue_twice_holding cb c1 c2 (snd r1) (snd r3) Hq Hh) as [E1 E2].
    subst r4 r2. unfold Session_enqueue at 2. cbn [client pending].
    rewrite E1. cbn [fst snd register].
    unfold Session_enqueue at 1. cbn [client pending]. rewrite E2. reflexivity.
Qed.

Lemma fan_out_two_sessions_witness :
  let out := fst (on_stdout_data sampleOutput
                    [mkSession idleClient []; mkSession streamingClient []]
                    (frozen 1700000000000)) in
  map (fun s => audioQueue (client s)) out =
    [[repeat x01 320; repeat x02 320]; [repeat x01 320; repeat x02 320]].
Proof.
  assert (Hlen : (640 <= List.length sampleOutput < 960)%nat) by (vm_compute; lia).
  pose proof (fan_out_two_sessions sampleOutput (mkSession idleClient [])
                (mkSession streamingClient []) (frozen 1700000000000) Hlen) as H.
  cbv zeta in H. destruct H as (Hstep & _ & _ & _ & Ha & Hb).
  assert (Hi : Holding idleClient) by (intros Hc; discriminate Hc).
  assert (Hs : Holding streamingClient)
    by (intros _ _; split; [reflexivity | split; [reflexivity | vm_compute; discriminate]]).
  specialize (Ha eq_refl Hi). specialize (Hb eq_refl Hs).
  cbv zeta. rewrite Hstep. cbn [fst map]. rewrite Ha, Hb. reflexivity.
Defined.

(** ** The byte counter *)

Lemma Paced_sendRtspFrame (chunk : option Buffer) (c : CameraClient) :
  Paced c ->
  (forall b, chunk = Some b -> Z.of_nat (List.length b) = CHUNK_SIZE) ->
  Paced (sendRtspFrame chunk c).
Proof.
  intros [Hq Ht] Hb. unfold sendRtspFrame.
  destruct (destroyed (socket c)); [now split|].
  destruct chunk as [b|]; [|now split].
  split; [exact Hq|]. cbn [totalBytesSent set_totalBytesSent].
  rewrite (Hb b eq_refl). destruct Ht as [m Hm]. exists (m + 1). lia.
Qed.

Lemma Paced_shift (c : CameraClient) :
  Paced c ->
  Paced (snd (shift c)) /\
  (forall b, fst (shift c) = Some b -> Z.of_nat (List.length b) = CHUNK_SIZE).
Proof.
  intros [Hq Ht]. unfold shift. destruct (audioQueue c) as [|x rest] eqn:E.
  - cbn [fst snd]. unfold Paced. rewrite E.
    split; [split; [constructor | exact Ht] | discriminate].
  - inversion Hq as [|? ? Hx Hrest]; subst. split.
    + split; [exact Hrest | exact Ht].
    + intros b Hb. cbn [fst] in Hb. now injection Hb as <-.
Qed.

Lemma Paced_burstLoop (n : nat) (c : CameraClient) : Paced c -> Paced (burstLoop n c).
Proof.
  revert c. induction n as [|n IH]; intros c Hp; [exact Hp|].
  cbn [burstLoop]. destruct (Paced_shift c Hp) as [Hs Hb].
  destruct (shift c) as [chunk c1]. cbn [fst snd] in *.
  apply IH, Paced_sendRtspFrame; assumption.
Qed.

Lemma Paced_maintain (c : CameraClient) (k : Clock) :
  Paced c -> Paced (fst (fst (maintain c k))).
Proof.
  intros Hp. unfold maintain, Date_now. cbv beta iota zeta.
  destruct (tooFarAhead _ _ _); [exact Hp|].
  destruct (Paced_shift c Hp) as [Hs Hb].
  destruct (shift c) as [[b|] c1]; cbn [fst snd] in *; [|exact Hs].
  apply Paced_sendRtspFrame; [exact Hs|].
  intros b' Hb'. injection Hb' as <-. now apply Hb.
Qed.

Lemma Paced_processQueue (c : CameraClient) (k : Clock) :
  Paced c -> Paced (fst (fst (processQueue c k))).
Proof.
  intros Hp. unfold processQueue.
  destruct (destroyed (socket c)).
  { split; [constructor | exact (proj2 Hp)]. }
  destruct (negb (isConnected c)); [exact Hp|].
  cbn [set_isThrottling audioQueue startTime sampleRate].
  destruct (List.length (audioQueue c) =? 0)%nat; [exact Hp|].
  destruct (startTime c =? 0); [|now apply Paced_maintain].
  destruct (Z.of_nat (List.length (audioQueue c)) >? burstPackets (sampleRate c));
    [|exact Hp].
  unfold Date_now. cbv beta iota zeta.
  apply Paced_maintain.
  pose proof (Paced_burstLoop (Z.to_nat (burstPackets (sampleRate c)))
                (set_isThrottling true c) Hp) as [Hq Ht].
  split; assumption.
Qed.

Lemma Paced_enqueue (chunk : Buffer) (c : CameraClient) (k : Clock) :
  Paced c ->
  Z.of_nat (List.length chunk) = CHUNK_SIZE ->
  Paced (fst (fst (enqueue chunk c k))).
Proof.
  intros [Hq Ht] Hb. unfold enqueue. cbv zeta.
  assert (P1 : Paced (set_audioQueue (audioQueue c ++ [chunk]) c)).
  { split; [|exact Ht]. cbn [set_audioQueue audioQueue].
    apply Forall_app. split; [exact Hq | now constructor]. }
  set (c1 := set_audioQueue (audioQueue c ++ [chunk]) c) in *.
  assert (P2 : Paced (if negb (isConnected c1) &&
                         (MAX_QUEUE_WHILE_DISCONNECTED <? Z.of_nat (List.length (audioQueue c1)))
                      then snd (shift c1) else c1)).
  { destruct (_ && _); [apply (Paced_shift c1 P1) | exact P1]. }
  destruct (_ && negb _); [now apply Paced_processQueue | exact P2].
Qed.

Lemma Paced_on_data (data : string) (c : CameraClient) (k : Clock) :
  Paced c -> Paced (fst (fst (on_data data c k))).
Proof.
  intros Hp. unfold on_data. destruct (isHandshakeAccepted data); [|exact Hp].
  cbv zeta. destruct (0 <? _)%nat; [|exact Hp].
  now apply Paced_processQueue.
Qed.

(** Every state the program can produce is paced. *)
Lemma Reachable_Paced (c : CameraClient) : Reachable c -> Paced c.
Proof.
  induction 1 as [a p r|c _ IH|c chunk k _ IH Hb|c k _ IH|c data k _ IH
                  |c _ IH|c _ IH|c _ IH|c w _ IH|c _ IH].
  - split; [constructor | exists 0; reflexivity].
  - exact IH.
  - now apply Paced_enqueue.
  - now apply Paced_processQueue.
  - now apply Paced_on_data.
  - split; [constructor | exact (proj2 IH)].
  - exact IH.
  - exact IH.
  - unfold stop. destruct w; exact IH.
  - exact IH.
Qed.

(** C10. In every state the client can reach, [totalBytesSent] is a
    multiple of [CHUNK_SIZE] and every queued chunk has [CHUNK_SIZE] = 320
    bytes; sending such a chunk on a live socket writes one frame of 336
    bytes (4 of header, 12 of padding, 320 of payload) and adds exactly the
    320 payload bytes to [totalBytesSent], the number the pacing test
    converts to milliseconds, which stays a multiple of [CHUNK_SIZE]. *)
Theorem payload_bytes_counted (c : CameraClient) (chunk : Buffer) :
  Reachable c ->
  destroyed (socket c) = false ->
  Z.of_nat (List.length chunk) = CHUNK_SIZE ->
  let c' := sendRtspFrame (Some chunk) c in
  written (socket c') = written (socket c) ++ [rtspFrame chunk] /\
  List.length (rtspFrame chunk) = 336%nat /\
  totalBytesSent c' = totalBytesSent c + 320 /\
  (CHUNK_SIZE | totalBytesSent c) /\
  (CHUNK_SIZE | totalBytesSent c') /\
  Forall (fun b => Z.of_nat (List.length b) = CHUNK_SIZE) (audioQueue c) /\
  (forall k,
      tooFarAhead (totalBytesSent c + 320) (sampleRate c * 2)
                  (reading k (ticks k) - startTime c) = true ->
      maintain c' k = ((c', Some (setTimeout 10)), snd (Date_now k))).
Proof.
  intros Hr Hd Hb c'.
  pose proof (Reachable_Paced c Hr) as [Hq Ht].
  assert (Hc' : c' = set_totalBytesSent (totalBytesSent c + CHUNK_SIZE)
                       (set_socket (socket_write (rtspFrame chunk) (socket c)) c)).
  { unfold c', sendRtspFrame. now rewrite Hd, Hb. }
  rewrite Hc'. cbn [set_totalBytesSent set_socket socket socket_write written totalBytesSent].
  split; [reflexivity|].
  split; [rewrite rtspFrame_length; unfold CHUNK_SIZE in Hb; lia|].
  split; [reflexivity|]. split; [exact Ht|].
  split; [destruct Ht as [m Hm]; exists (m + 1); lia|].
  split; [exact Hq|].
  intros k Ha. apply maintain_wait. exact Ha.
Qed.

Lemma payload_bytes_counted_witness :
  let c' := sendRtspFrame (Some (chunkOf 7)) streamingClient in
  written (socket c') = written (socket streamingClient) ++ [rtspFrame (chunkOf 7)] /\
  List.length (rtspFrame (chunkOf 7)) = 336%nat /\
  totalBytesSent c' = 320.
Proof.
  assert (Hr : Reachable streamingClient).
  { unfold streamingClient. apply R_data, R_connect. unfold idleClient. apply R_new. }
  pose proof (payload_bytes_counted streamingClient (chunkOf 7) Hr eq_refl eq_refl) as H.
  cbv zeta in H. destruct H as (Hw & Hl & Ht & _).
  split; [exact Hw | split; [exact Hl | exact Ht]].
Defined.

(** * Further properties of the program *)

(** ** Nothing is lost, duplicated or reordered *)

Lemma Conserves_refl (c : CameraClient) : Conserves c c.
Proof. repeat split. Qed.

Lemma Conserves_trans (a b c : CameraClient) :
  Conserves a b -> Conserves b c -> Conserves a c.
Proof.
  intros (H1 & H2 & H3 & H4 & H5) (G1 & G2 & G3 & G4 & G5).
  repeat split; congruence.
Qed.

Lemma Conserves_throttle (c : CameraClient) (b : bool) :
  Conserves c (set_isThrottling b c).
Proof. unfold Conserves, history. repeat split. Qed.

Lemma maintain_conserves (c : CameraClient) (k : Clock) :
  destroyed (socket c) = false -> Conserves c (fst (fst (maintain c k))).
Proof.
  intros Hd. unfold maintain, Date_now. cbv beta iota zeta.
  destruct (tooFarAhead _ _ _); [apply Conserves_refl|].
  destruct c as [a p r [d tm w] q st tot thr con]. cbn in Hd. subst d.
  destruct q as [|b q]; [apply Conserves_refl|].
  unfold Conserves, history. cbn. rewrite <- app_assoc. cbn.
  repeat split. fold (bytesOf q). lia.
Qed.

(** X1. A drain cycle on a live socket moves chunks from the queue to the
    socket and does nothing else to them: the frames written followed by
    the frames of the queued chunks are the same list before and after, and
    the bytes counted plus the bytes queued are the same number. *)
Theorem processQueue_conserves (c : CameraClient) (k : Clock) :
  destroyed (socket c) = false ->
  Conserves c (fst (fst (processQueue c k))).
Proof.
  intros Hd. unfold processQueue. rewrite Hd.
  destruct (isConnected c) eqn:Hc; cbn [negb]; [|apply Conserves_refl].
  cbn [set_isThrottling audioQueue startTime sampleRate].
  destruct (List.length (audioQueue c) =? 0)%nat; [apply (Conserves_throttle c false)|].
  destruct (startTime c =? 0); [|].
  - destruct (Z.gtb_spec (Z.of_nat (List.length (audioQueue c))) (burstPackets (sampleRate c)))
      as [Hgt|Hle]; [|apply (Conserves_throttle c false)].
    unfold Date_now. cbv beta iota zeta.
    eapply Conserves_trans; [|apply maintain_conserves].
    + rewrite burstLoop_spec; [|exact Hd|cbn [set_isThrottling audioQueue]; lia].
      unfold Conserves, history.
      cbn [set_isThrottling set_startTime ip port sampleRate socket audioQueue startTime
           totalBytesSent isThrottling isConnected timeoutMs written destroyed].
      set (n := Z.to_nat (burstPackets (sampleRate c))).
      rewrite <- app_assoc, <- map_app, firstn_skipn.
      rewrite Z.add_shuffle0, <- Z.add_assoc, (Z.add_comm (bytesOf (skipn n _))),
        <- bytesOf_app, firstn_skipn.
      repeat split; congruence.
    + rewrite burstLoop_spec; [reflexivity|exact Hd|cbn [set_isThrottling audioQueue]; lia].
  - eapply Conserves_trans; [|apply maintain_conserves; exact Hd].
    apply Conserves_throttle.
Qed.

Lemma processQueue_conserves_witness :
  Conserves (set_audioQueue (chunksFrom 0 51) streamingClient)
            (fst (fst (processQueue (set_audioQueue (chunksFrom 0 51) streamingClient)
                                    (frozen 1700000000000)))).
Proof.
  exact (processQueue_conserves (set_audioQueue (chunksFrom 0 51) streamingClient)
           (frozen 1700000000000) eq_refl).
Defined.

Lemma enqueue_history (b : Buffer) (c : CameraClient) (k : Clock) :
  destroyed (socket c) = false ->
  isConnected c = true ->
  let c' := fst (fst (enqueue b c k)) in
  history c' = history c ++ [rtspFrame b] /\
  totalBytesSent c' + bytesOf (audioQueue c') =
    totalBytesSent c + bytesOf (audioQueue c) + Z.of_nat (List.length b) /\
  destroyed (socket c') = false /\
  isConnected c' = true.
Proof.
  intros Hd Hc c'.
  set (c1 := set_audioQueue (audioQueue c ++ [b]) c).
  assert (H1 : history c1 = history c ++ [rtspFrame b]).
  { unfold history, c1. cbn [set_audioQueue socket audioQueue].
    now rewrite map_app, app_assoc. }
  assert (B1 : totalBytesSent c1 + bytesOf (audioQueue c1) =
               totalBytesSent c + bytesOf (audioQueue c) + Z.of_nat (List.length b)).
  { unfold c1. cbn [set_audioQueue totalBytesSent audioQueue].
    rewrite bytesOf_app. cbn [bytesOf fold_right]. lia. }
  assert (E : c' = c1 \/ c' = fst (fst (processQueue c1 k))).
  { assert (Hc1 : isConnected c1 = true) by exact Hc.
    unfold c', enqueue. cbv zeta. fold c1. rewrite Hc1. cbn [negb andb].
    rewrite Hc1. cbn [andb].
    destruct (negb (isThrottling c1)); [right|left]; reflexivity. }
  destruct E as [-> | ->].
  - repeat split; assumption.
  - destruct (processQueue_conserves c1 k Hd) as (G1 & G2 & G3 & G4 & _).
    split; [now rewrite G1|]. split; [now rewrite G2|].
    split; [rewrite G3; exact Hd | rewrite G4; exact Hc].
Qed.

(** X2. On a connected client with a live socket, whatever the order in
    which chunks arrive and callbacks run, the frames written followed by
    the frames still queued are exactly what was there before followed by
    the frames of the arriving chunks, in arrival order: the client never
    drops, duplicates or reorders a chunk, and the bytes counted plus the
    bytes queued grow by the bytes that arrived. *)
Theorem play_in_order (es : list Event) (s : Session) (k : Clock) :
  destroyed (socket (client s)) = false ->
  isConnected (client s) = true ->
  let s' := fst (play es s k) in
  history (client s') = history (client s) ++ map rtspFrame (arrivals es) /\
  totalBytesSent (client s') + bytesOf (audioQueue (client s')) =
    totalBytesSent (client s) + bytesOf (audioQueue (client s)) + bytesOf (arrivals es) /\
  destroyed (socket (client s')) = false /\
  isConnected (client s') = true.
Proof.
  revert s k. induction es as [|e es IH]; intros s k Hd Hc.
  - cbn. rewrite app_nil_r, Z.add_0_r. repeat split; assumption.
  - cbn [play]. destruct (step e s k) as [s1 k1] eqn:E.
    assert (H1 : history (client s1) =
                 history (client s) ++ map rtspFrame (arrivals [e]) /\
                 totalBytesSent (client s1) + bytesOf (audioQueue (client s1)) =
                 totalBytesSent (client s) + bytesOf (audioQueue (client s))
                 + bytesOf (arrivals [e]) /\
                 destroyed (socket (client s1)) = false /\
                 isConnected (client s1) = true).
    { destruct e as [b|]; cbn [step] in E.
      - unfold Session_enqueue in E.
        pose proof (enqueue_history b (client s) k Hd Hc) as H. cbv zeta in H.
        destruct (enqueue b (client s) k) as [[c1 t1] k1']. injection E as <- _.
        cbn [client fst] in *. cbn [arrivals flat_map app map bytesOf fold_right].
        rewrite Z.add_0_r. exact H.
      - unfold fire in E. cbn [arrivals flat_map map bytesOf fold_right].
        rewrite app_nil_r, Z.add_0_r.
        destruct (pending s) as [|t rest].
        + injection E as <- _. repeat split; assumption.
        + pose proof (processQueue_conserves (client s) k Hd) as (G1 & G2 & G3 & G4 & _).
          destruct (processQueue (client s) k) as [[c1 t1] k1']. injection E as <- _.
          cbn [client fst] in *. repeat split; congruence. }
    destruct H1 as (G1 & G2 & G3 & G4).
    specialize (IH s1 k1 G3 G4). cbv zeta in IH.
    destruct IH as (I1 & I2 & I3 & I4).
    cbv zeta.
    replace (arrivals (e :: es)) with (arrivals [e] ++ arrivals es)
      by (unfold arrivals; cbn [flat_map]; now rewrite app_nil_r).
    rewrite map_app, bytesOf_app, app_assoc, I1, I2, G1, G2.
    repeat split; try assumption. lia.
Qed.

Lemma play_in_order_witness :
  let es := map Chunk (chunksFrom 0 60) ++ [Callback; Callback; Chunk (chunkOf 60); Callback] in
  let s' := fst (play es (mkSession streamingClient []) (frozen 1700000000000)) in
  history (client s') =
    history streamingClient ++ map rtspFrame (chunksFrom 0 61).
Proof.
  pose proof (play_in_order
                (map Chunk (chunksFrom 0 60) ++ [Callback; Callback; Chunk (chunkOf 60); Callback])
                (mkSession streamingClient []) (frozen 1700000000000) eq_refl eq_refl) as H.
  cbv zeta in H. destruct H as (H & _).
  cbv zeta. rewrite H. f_equal.
Defined.

(** ** A destroyed socket *)

Lemma processQueue_destroyed (c : CameraClient) (k : Clock) :
  destroyed (socket c) = true ->
  processQueue c k = ((set_audioQueue [] c, None), k).
Proof. intros Hd. unfold processQueue. now rewrite Hd. Qed.

Lemma enqueue_destroyed (b : Buffer) (c : CameraClient) (k : Clock) :
  destroyed (socket c) = true ->
  socket (fst (fst (enqueue b c k))) = socket c /\
  totalBytesSent (fst (fst (enqueue b c k))) = totalBytesSent c /\
  snd (fst (enqueue b c k)) = None /\
  snd (enqueue b c k) = k.
Proof.
  intros Hd. unfold enqueue. cbv zeta.
  set (c1 := set_audioQueue (audioQueue c ++ [b]) c).
  set (c2 := if negb (isConnected c1) &&
                (MAX_QUEUE_WHILE_DISCONNECTED <? Z.of_nat (List.length (audioQueue c1)))
             then snd (shift c1) else c1).
  assert (H2 : socket c2 = socket c /\ totalBytesSent c2 = totalBytesSent c).
  { unfold c2. destruct (_ && _); [|split; reflexivity].
    unfold shift. destruct (audioQueue c1); split; reflexivity. }
  destruct H2 as [S2 T2].
  destruct (isConnected c2 && negb (isThrottling c2)).
  - rewrite processQueue_destroyed by (rewrite S2; exact Hd).
    cbn [fst snd set_audioQueue socket totalBytesSent]. repeat split; assumption.
  - cbn [fst snd]. repeat split; assumption.
Qed.

Lemma play_destroyed (es : list Event) (s : Session) (k : Clock) :
  destroyed (socket (client s)) = true ->
  socket (client (fst (play es s k))) = socket (client s) /\
  totalBytesSent (client (fst (play es s k))) = totalBytesSent (client s) /\
  (List.length (pending (fst (play es s k))) <= List.length (pending s))%nat /\
  snd (play es s k) = k.
Proof.
  revert s. induction es as [|e es IH]; intros s Hd.
  - cbn. repeat split. lia.
  - cbn [play]. destruct (step e s k) as [s1 k1] eqn:E.
    assert (H1 : socket (client s1) = socket (client s) /\
                 totalBytesSent (client s1) = totalBytesSent (client s) /\
                 (List.length (pending s1) <= List.length (pending s))%nat /\
                 k1 = k).
    { destruct e as [b|]; cbn [step] in E.
      - unfold Session_enqueue in E.
        pose proof (enqueue_destroyed b (client s) k Hd) as (G1 & G2 & G3 & G4).
        destruct (enqueue b (client s) k) as [[c1 t1] k1']. cbn [fst snd] in *.
        injection E as <- <-. subst t1 k1'. cbn [client pending register].
        repeat split; try assumption. lia.
      - unfold fire in E. destruct (pending s) as [|t rest] eqn:Ep.
        + injection E as <- <-. rewrite Ep. repeat split. lia.
        + rewrite processQueue_destroyed in E by exact Hd.
          injection E as <- <-. cbn [client pending register set_audioQueue socket
                                     totalBytesSent List.length].
          repeat split. lia. }
    destruct H1 as (G1 & G2 & G3 & ->).
    assert (Hd1 : destroyed (socket (client s1)) = true) by (rewrite G1; exact Hd).
    destruct (IH s1 Hd1) as (I1 & I2 & I3 & I4).
    rewrite I1, I2, I4, G1, G2. repeat split. lia.
Qed.

(** X3. Once the socket is destroyed the client never writes to it and
    never counts a byte again, whatever chunks arrive and whatever callbacks
    run; no chunk arrival registers a timer any more, and a callback that
    finds the socket destroyed empties the queue and ends the drain chain. *)
Theorem destroyed_never_sends (es : list Event) (s : Session) (k : Clock) :
  destroyed (socket (client s)) = true ->
  let s' := fst (play es s k) in
  socket (client s') = socket (client s) /\
  totalBytesSent (client s') = totalBytesSent (client s) /\
  (List.length (pending s') <= List.length (pending s))%nat /\
  snd (play es s k) = k /\
  (forall t rest, pending s = t :: rest ->
     audioQueue (client (fst (fire s k))) = [] /\ pending (fst (fire s k)) = rest).
Proof.
  intros Hd s'. destruct (play_destroyed es s k Hd) as (P1 & P2 & P3 & P4).
  repeat split; try assumption.
  - unfold fire. rewrite H. rewrite processQueue_destroyed by exact Hd. reflexivity.
  - unfold fire. rewrite H. rewrite processQueue_destroyed by exact Hd. reflexivity.
Qed.

Lemma destroyed_never_sends_witness :
  let dead := set_socket (socket_destroy (socket bufferingClient)) bufferingClient in
  let s' := fst (play [Chunk (chunkOf 2); Callback; Chunk (chunkOf 3)]
                      (mkSession dead []) (frozen 1700000000000)) in
  socket (client s') = socket dead /\ totalBytesSent (client s') = 0.
Proof.
  pose proof (destroyed_never_sends [Chunk (chunkOf 2); Callback; Chunk (chunkOf 3)]
                (mkSession (set_socket (socket_destroy (socket bufferingClient)) bufferingClient) [])
                (frozen 1700000000000) eq_refl) as H.
  cbv zeta in H. destruct H as (H1 & H2 & _).
  split; [exact H1 | exact H2].
Defined.

(** ** One drain chain *)

Lemma processQueue_timer_busy (c : CameraClient) (k : Clock) (t : Timer) :
  snd (fst (processQueue c k)) = Some t ->
  isThrottling (fst (fst (processQueue c k))) = true.
Proof.
  unfold processQueue.
  destruct (destroyed (socket c)); [discriminate|].
  destruct (negb (isConnected c)); [discriminate|].
  cbn [set_isThrottling audioQueue startTime sampleRate].
  destruct (List.length (audioQueue c) =? 0)%nat; [discriminate|].
  assert (M : forall c0 k0, isThrottling c0 = true ->
                isThrottling (fst (fst (maintain c0 k0))) = true).
  { intros c0 k0 H0. unfold maintain, Date_now. cbv beta iota zeta.
    destruct (tooFarAhead _ _ _); [exact H0|].
    unfold shift. destruct (audioQueue c0) as [|b q]; [exact H0|].
    cbn [fst snd]. unfold sendRtspFrame.
    cbn [set_audioQueue socket]. destruct (destroyed (socket c0)); exact H0. }
  assert (B : forall n c0, isThrottling (burstLoop n c0) = isThrottling c0).
  { induction n as [|n IH]; intros c0; [reflexivity|].
    cbn [burstLoop]. unfold shift. destruct (audioQueue c0) as [|b q].
    - rewrite IH. unfold sendRtspFrame. destruct (destroyed (socket c0)); reflexivity.
    - rewrite IH. unfold sendRtspFrame. cbn [set_audioQueue socket].
      destruct (destroyed (socket c0)); reflexivity. }
  destruct (startTime c =? 0).
  - destruct (_ >? _); [|discriminate].
    unfold Date_now. cbv beta iota zeta. intros _. apply M.
    cbn [set_startTime isThrottling]. rewrite B. reflexivity.
  - intros _. apply M. reflexivity.
Qed.

Lemma Session_enqueue_SingleFlight (b : Buffer) (s : Session) (k : Clock) :
  SingleFlight s -> SingleFlight (fst (Session_enqueue b s k)).
Proof.
  intros Hs. unfold Session_enqueue, enqueue. cbv zeta.
  set (c1 := set_audioQueue (audioQueue (client s) ++ [b]) (client s)).
  set (c2 := if negb (isConnected c1) &&
                (MAX_QUEUE_WHILE_DISCONNECTED <? Z.of_nat (List.length (audioQueue c1)))
             then snd (shift c1) else c1).
  assert (T2 : isThrottling c2 = isThrottling (client s)).
  { unfold c2. destruct (_ && _); [|reflexivity].
    unfold shift. destruct (audioQueue c1); reflexivity. }
  destruct (isConnected c2 && negb (isThrottling c2)) eqn:E.
  - apply andb_true_iff in E. destruct E as [_ E]. apply negb_true_iff in E.
    rewrite T2 in E.
    assert (Hp : pending s = []).
    { destruct Hs as [Hp | [Ht _]]; [exact Hp | congruence]. }
    pose proof (processQueue_timer_busy c2 k) as Hb.
    destruct (processQueue c2 k) as [[c3 t3] k3]. cbn [fst snd] in *.
    rewrite Hp. destruct t3 as [t|]; cbn [register app].
    + right. split; [now apply (Hb t) | now exists t].
    + now left.
  - cbn [fst client pending register].
    destruct Hs as [Hp | [Ht Hp]]; [now left | right].
    cbn [client pending]. split; [now rewrite T2 | exact Hp].
Qed.

Lemma fire_SingleFlight (s : Session) (k : Clock) :
  SingleFlight s -> SingleFlight (fst (fire s k)).
Proof.
  intros Hs. unfold fire. destruct (pending s) as [|t rest] eqn:Ep; [now left|].
  assert (Hr : rest = []).
  { destruct Hs as [Hp | [_ [t' Hp]]]; [congruence|].
    rewrite Ep in Hp. now injection Hp. }
  subst rest.
  pose proof (processQueue_timer_busy (client s) k) as Hb.
  destruct (processQueue (client s) k) as [[c1 t1] k1]. cbn [fst snd] in *.
  destruct t1 as [t'|]; cbn [register app].
  - right. split; [now apply (Hb t') | now exists t'].
  - now left.
Qed.

(** X4. Chunk arrivals and callbacks never leave two [processQueue]
    callbacks owed to one client: from a session with none owed (or one, the
    pacer being marked busy), every sequence of arrivals and callbacks ends
    with at most one owed, and then the pacer is marked busy. *)
Theorem play_SingleFlight (es : list Event) (s : Session) (k : Clock) :
  SingleFlight s ->
  SingleFlight (fst (play es s k)) /\
  (List.length (pending (fst (play es s k))) <= 1)%nat.
Proof.
  intros Hs.
  assert (H : SingleFlight (fst (play es s k))).
  { revert s k Hs. induction es as [|e es IH]; intros s k Hs; [exact Hs|].
    cbn [play]. destruct (step e s k) as [s1 k1] eqn:E. apply IH.
    destruct e as [b|]; cbn [step] in E.
    - pose proof (Session_enqueue_SingleFlight b s k Hs) as H. now rewrite E in H.
    - pose proof (fire_SingleFlight s k Hs) as H. now rewrite E in H. }
  split; [exact H|].
  destruct H as [-> | [_ [t ->]]]; cbn; lia.
Qed.

Lemma play_SingleFlight_witness :
  (List.length (pending (fst (play (map Chunk (chunksFrom 0 60) ++ [Callback; Chunk (chunkOf 60)])
                                   (mkSession streamingClient [])
                                   (frozen 1700000000000)))) <= 1)%nat.
Proof.
  exact (proj2 (play_SingleFlight
                  (map Chunk (chunksFrom 0 60) ++ [Callback; Chunk (chunkOf 60)])
                  (mkSession streamingClient []) (frozen 1700000000000)
                  (or_introl eq_refl))).
Defined.

(** ** The handshake and the queue *)

(** X5. When the camera's acceptance arrives, the client becomes connected
    and its socket timeout is disabled; the audio buffered during the
    handshake is kept, and if it exceeds the burst the burst goes out in the
    same call, oldest chunk first, followed by one more chunk unless the
    pacing test holds it back. With no more than the burst buffered, nothing
    is written and the pacer is left idle. *)
Theorem acceptance_starts_burst (data : string) (c : CameraClient) (k : Clock) (n : nat) :
  isHandshakeAccepted data = true ->
  destroyed (socket c) = false ->
  startTime c = 0 ->
  burstPackets (sampleRate c) = Z.of_nat n ->
  let q := audioQueue c in
  let ahead := tooFarAhead (totalBytesSent c + bytesOf (firstn n q))
                           (sampleRate c * 2)
                           (reading k (S (ticks k)) - reading k (ticks k)) in
  let m := if ahead then n else S n in
  ((n < List.length q)%nat ->
   on_data data c k =
     ((mkCameraClient (ip c) (port c) (sampleRate c)
         (mkSocket false 0 (written (socket c) ++ map rtspFrame (firstn m q)))
         (skipn m q)
         (reading k (ticks k))
         (totalBytesSent c + bytesOf (firstn m q))
         true true,
       Some (if ahead then setTimeout 10 else setImmediate)),
      mkClock (reading k) (S (S (ticks k))))) /\
  ((List.length q <= n)%nat ->
   on_data data c k =
     ((mkCameraClient (ip c) (port c) (sampleRate c)
         (mkSocket false 0 (written (socket c)))
         q 0 (totalBytesSent c) (if (0 <? List.length q)%nat then false else isThrottling c)
         true,
       None), k)).
Proof.
  intros Ha Hd Hs Hb q ahead m.
  destruct c as [a p r [d tm w] q0 st tot thr con].
  cbn [destroyed socket startTime sampleRate audioQueue totalBytesSent ip port written
       isThrottling] in *.
  subst d st q. split; intros Hn.
  - unfold on_data. rewrite Ha. cbv zeta.
    cbn [set_isConnected set_socket socket_setTimeout ip port sampleRate socket audioQueue
         startTime totalBytesSent isThrottling isConnected destroyed timeoutMs written].
    destruct q0 as [|b0 q0']; [simpl in Hn; lia|].
    cbn [List.length Nat.ltb Nat.leb].
    rewrite (cold_start_burst _ k n);
      first [reflexivity | exact Hb | exact Hn].
  - unfold on_data. rewrite Ha. cbv zeta.
    cbn [set_isConnected set_socket socket_setTimeout ip port sampleRate socket audioQueue
         startTime totalBytesSent isThrottling isConnected destroyed timeoutMs written].
    destruct q0 as [|b0 q0']; [reflexivity|].
    cbn [List.length Nat.ltb Nat.leb].
    rewrite processQueue_buffering; try reflexivity.
    cbn [set_socket set_isConnected sampleRate audioQueue]. rewrite Hb. lia.
Qed.

Lemma acceptance_starts_burst_witness :
  let c := set_audioQueue (chunksFrom 0 60) (connect idleClient) in
  let r := fst (fst (on_data acceptance c (frozen 1700000000000))) in
  written (socket r) = written (socket c) ++ map rtspFrame (chunksFrom 0 51) /\
  audioQueue r = chunksFrom 51 9 /\
  isConnected r = true /\ timeoutMs (socket r) = 0.
Proof.
  pose proof (acceptance_starts_burst acceptance
                (set_audioQueue (chunksFrom 0 60) (connect idleClient))
                (frozen 1700000000000) 50 eq_refl eq_refl eq_refl eq_refl) as H.
  cbv zeta in H. destruct H as [H _].
  assert (L : (50 < List.length
                     (audioQueue (set_audioQueue (chunksFrom 0 60) (connect idleClient))))%nat)
    by (vm_compute; lia).
  specialize (H L). cbv zeta. rewrite H. cbn [fst socket written audioQueue isConnected timeoutMs].
  repeat split.
Defined.

(** X6. The ['data'] handler does not look at the pacer's busy mark: an
    acceptance text that arrives while a streaming client already has a
    callback registered and chunks queued runs a drain cycle of its own and
    registers a second callback. *)
Theorem repeated_acceptance_second_chain (data : string) (s : Session) (k : Clock) (t : Timer) :
  isHandshakeAccepted data = true ->
  destroyed (socket (client s)) = false ->
  isConnected (client s) = true ->
  isThrottling (client s) = true ->
  startTime (client s) <> 0 ->
  audioQueue (client s) <> [] ->
  pending s = [t] ->
  exists t', pending (fst (Session_on_data data s k)) = [t; t'] /\
             (t' = setImmediate \/ t' = setTimeout 10).
Proof.
  intros Ha Hd Hc Ht Hs Hq Hp.
  destruct s as [c p]. cbn [client pending] in *. subst p.
  unfold Session_on_data, on_data. cbn [client pending]. rewrite Ha. cbv zeta.
  destruct c as [a p r [d tm w] q st tot thr con].
  cbn [destroyed socket startTime sampleRate audioQueue totalBytesSent ip port written
       isThrottling isConnected] in *.
  subst d con thr.
  cbn [set_isConnected set_socket socket_setTimeout ip port sampleRate socket audioQueue
       startTime totalBytesSent isThrottling isConnected destroyed timeoutMs written].
  destruct q as [|b q]; [congruence|]. cbn [List.length Nat.ltb Nat.leb].
  rewrite processQueue_steady; [|reflexivity|reflexivity|exact Hs|discriminate].
  unfold maintain, Date_now. cbv beta iota zeta.
  destruct (tooFarAhead _ _ _).
  - exists (setTimeout 10). split; [reflexivity | now right].
  - cbn [shift set_isThrottling audioQueue]. exists setImmediate.
    split; [reflexivity | now left].
Qed.

Lemma repeated_acceptance_second_chain_witness :
  let s := fst (feed (chunksFrom 0 60) (mkSession streamingClient []) (frozen 1700000000000)) in
  List.length (pending (fst (Session_on_data acceptance s (frozen 1700000000000)))) = 2%nat.
Proof.
  assert (Hs : startTime (client (fst (feed (chunksFrom 0 60) (mkSession streamingClient [])
                                            (frozen 1700000000000)))) <> 0)
    by (vm_compute; discriminate).
  assert (Hq : audioQueue (client (fst (feed (chunksFrom 0 60) (mkSession streamingClient [])
                                             (frozen 1700000000000)))) <> [])
    by (vm_compute; discriminate).
  destruct (repeated_acceptance_second_chain acceptance
              (fst (feed (chunksFrom 0 60) (mkSession streamingClient []) (frozen 1700000000000)))
              (frozen 1700000000000) setImmediate
              eq_refl eq_refl eq_refl eq_refl Hs Hq eq_refl) as (t' & H & _).
  cbv zeta. rewrite H. reflexivity.
Defined.

(** ** Pacing over time *)

(** X7. While the pacing test stays true the client polls: however many
    times the 10 ms callback runs, nothing is dequeued, written or counted,
    and exactly one 10 ms callback stays registered. *)
Theorem throttled_polling (fuel : nat) (c : CameraClient) (k : Clock) :
  destroyed (socket c) = false ->
  isConnected c = true ->
  isThrottling c = true ->
  startTime c <> 0 ->
  audioQueue c <> [] ->
  (forall n, tooFarAhead (totalBytesSent c) (sampleRate c * 2)
                         (reading k n - startTime c) = true) ->
  fst (run_pending fuel (mkSession c [setTimeout 10]) k) = mkSession c [setTimeout 10].
Proof.
  intros Hd Hc Ht Hs Hq. revert k. induction fuel as [|fuel IH]; intros k Ha; [reflexivity|].
  cbn [run_pending pending fire client].
  assert (E : processQueue c k = ((set_isThrottling true c, Some (setTimeout 10)), snd (Date_now k))) by (rewrite processQueue_steady by assumption; apply maintain_wait; apply Ha).
  rewrite E. cbn [register app].
  replace (set_isThrottling true c) with c
    by (destruct c; cbn in Ht; now subst).
  apply IH. intros n. apply Ha.
Qed.

Lemma throttled_polling_witness :
  fst (run_pending 5 (mkSession aheadClient [setTimeout 10]) (frozen 1700000000000)) =
  mkSession aheadClient [setTimeout 10].
Proof.
  assert (Hs : startTime aheadClient <> 0) by discriminate.
  assert (Hq : audioQueue aheadClient <> []) by discriminate.
  exact (throttled_polling 5 aheadClient (frozen 1700000000000)
           eq_refl eq_refl eq_refl Hs Hq (fun _ => eq_refl)).
Defined.

(** X8. After the burst, a chunk that arrives while the pacer is idle (the
    queue has drained) is written in the same call and the pacer is re-armed
    with an immediate callback; if the pacing test finds the client ahead,
    the chunk is queued instead and a 10 ms callback is registered. *)
Theorem steady_arrival (b : Buffer) (c : CameraClient) (k : Clock) :
  destroyed (socket c) = false ->
  isConnected c = true ->
  isThrottling c = false ->
  startTime c <> 0 ->
  audioQueue c = [] ->
  enqueue b c k =
    if tooFarAhead (totalBytesSent c) (sampleRate c * 2)
                   (reading k (ticks k) - startTime c)
    then ((set_isThrottling true (set_audioQueue [b] c), Some (setTimeout 10)),
          snd (Date_now k))
    else ((mkCameraClient (ip c) (port c) (sampleRate c)
             (mkSocket false (timeoutMs (socket c)) (written (socket c) ++ [rtspFrame b]))
             [] (startTime c) (totalBytesSent c + Z.of_nat (List.length b)) true true,
           Some setImmediate),
          snd (Date_now k)).
Proof.
  intros Hd Hc Ht Hs Hq.
  rewrite enqueue_wakes by assumption. rewrite Hq. cbn [app].
  rewrite processQueue_steady; [|exact Hd|exact Hc|exact Hs|discriminate].
  destruct (tooFarAhead (totalBytesSent c) (sampleRate c * 2)
              (reading k (ticks k) - startTime c)) eqn:Ea.
  - rewrite maintain_wait; [reflexivity | exact Ea].
  - rewrite (maintain_send _ _ b []); [|exact Hd | reflexivity | exact Ea].
    cbn [set_isThrottling set_audioQueue ip port sampleRate socket startTime
         totalBytesSent isThrottling isConnected].
    rewrite Hc. reflexivity.
Qed.

Lemma steady_arrival_witness :
  fst (enqueue (chunkOf 51) drainedClient (frozen 1700000000000)) =
  (mkCameraClient "192.168.1.100" 554 8000 (mkSocket false 0 [rtspFrame (chunkOf 51)])
                  [] 1700000000000 16640 true true,
   Some setImmediate).
Proof.
  assert (Hs : startTime drainedClient <> 0) by discriminate.
  rewrite (steady_arrival (chunkOf 51) drainedClient (frozen 1700000000000)
             eq_refl eq_refl eq_refl Hs eq_refl).
  reflexivity.
Defined.

(** ** Frames of any size *)

(** X9. The frame of any chunk, whatever its size, is the same sixteen
    bytes followed by the chunk, so the chunk can be read back and different
    chunks give different frames; the length field always says 332 and so
    agrees with the number of bytes that follow the four header bytes
    exactly when the chunk has [CHUNK_SIZE] = 320 bytes. *)
Theorem frame_length_field (chunk other : Buffer) :
  firstn 16 (rtspFrame chunk) = [x24; x02; x4c; x01] ++ repeat x00 12 /\
  skipn 16 (rtspFrame chunk) = chunk /\
  List.length (rtspFrame chunk) = (16 + List.length chunk)%nat /\
  readUInt16LE 2 (rtspFrame chunk) = FRAME_LEN /\
  (readUInt16LE 2 (rtspFrame chunk) = Z.of_nat (List.length (rtspFrame chunk)) - 4 <->
   Z.of_nat (List.length chunk) = CHUNK_SIZE) /\
  (rtspFrame chunk = rtspFrame other -> chunk = other).
Proof.
  rewrite !rtspFrame_unfold.
  split; [reflexivity|]. split; [reflexivity|]. split; [reflexivity|].
  split; [reflexivity|]. split.
  - change (readUInt16LE 2 ([x24; x02; x4c; x01] ++ repeat x00 12 ++ chunk)) with 332.
    rewrite !length_app, repeat_length. cbn [List.length]. unfold CHUNK_SIZE. lia.
  - intros H. apply (f_equal (skipn 16)) in H. exact H.
Qed.

(** ** The size of the burst *)




(** ** The fan-out on a block of any length *)

Lemma loopIndices_split (len : nat) :
  loopIndices len =
  seq 0 (len / Z.to_nat CHUNK_SIZE) ++
  (if (len mod Z.to_nat CHUNK_SIZE =? 0)%nat then [] else [len / Z.to_nat CHUNK_SIZE]%nat).
Proof.
  unfold loopIndices. change (Z.to_nat CHUNK_SIZE) with 320%nat.
  pose proof (Nat.div_mod_eq len 320) as E.
  pose proof (Nat.mod_upper_bound len 320 ltac:(lia)) as B.
  destruct (Nat.eqb_spec (len mod 320) 0) as [H0|Hn].
  - rewrite app_nil_r. f_equal.
    symmetry. apply (Nat.div_unique _ _ _ 319); lia.
  - rewrite <- seq_S. f_equal.
    symmetry. apply (Nat.div_unique _ _ _ (len mod 320 - 1)); lia.
Qed.

Lemma slice_window_length (j : nat) (data : Buffer) :
  List.length (slice (j * Z.to_nat CHUNK_SIZE) (j * Z.to_nat CHUNK_SIZE + Z.to_nat CHUNK_SIZE) data)
  = Nat.min (Z.to_nat CHUNK_SIZE) (List.length data - j * Z.to_nat CHUNK_SIZE).
Proof.
  unfold slice. rewrite length_firstn, length_skipn. f_equal. lia.
Qed.

Lemma fanOutLoop_full (js : list nat) (data : Buffer) (cl : list Session) (k : Clock) :
  (forall j, In j js -> (j * Z.to_nat CHUNK_SIZE + Z.to_nat CHUNK_SIZE <= List.length data)%nat) ->
  fanOutLoop js data cl k =
  deliver (map (fun j => slice (j * Z.to_nat CHUNK_SIZE)
                               (j * Z.to_nat CHUNK_SIZE + Z.to_nat CHUNK_SIZE) data) js)
          cl k.
Proof.
  revert cl k. induction js as [|j js IH]; intros cl k H; [reflexivity|].
  cbn [fanOutLoop map deliver].
  rewrite slice_window_length.
  replace (Nat.min (Z.to_nat CHUNK_SIZE) (List.length data - j * Z.to_nat CHUNK_SIZE))
    with (Z.to_nat CHUNK_SIZE) by (specialize (H j (or_introl eq_refl)); lia).
  change (Z.of_nat (Z.to_nat CHUNK_SIZE) =? CHUNK_SIZE) with true. cbv iota.
  destruct (forEach_enqueue _ cl k) as [cl1 k1].
  apply IH. intros j' Hj'. apply H. now right.
Qed.

Lemma concat_windows (data : Buffer) (n : nat) :
  (n * Z.to_nat CHUNK_SIZE <= List.length data)%nat ->
  concat (map (fun j => slice (j * Z.to_nat CHUNK_SIZE)
                              (j * Z.to_nat CHUNK_SIZE + Z.to_nat CHUNK_SIZE) data)
              (seq 0 n))
  = firstn (n * Z.to_nat CHUNK_SIZE) data.
Proof.
  induction n as [|n IH]; intros H; [reflexivity|].
  rewrite seq_S, map_app, concat_app, IH by lia.
  cbn [map concat Nat.add]. rewrite app_nil_r.
  replace (S n * Z.to_nat CHUNK_SIZE)%nat
    with (n * Z.to_nat CHUNK_SIZE + Z.to_nat CHUNK_SIZE)%nat by lia.
  rewrite firstn_plus. unfold slice. do 2 f_equal. lia.
Qed.

Lemma on_stdout_data_deliver (data : Buffer) (clients : list Session) (k : Clock) :
  on_stdout_data data clients k = deliver (fullChunks data) clients k.
Proof.
  unfold on_stdout_data. rewrite loopIndices_split, fanOutLoop_app.
  rewrite (fanOutLoop_full (seq 0 (List.length data / Z.to_nat CHUNK_SIZE))).
  2:{ intros j Hj. apply in_seq in Hj.
      pose proof (Nat.div_mod_eq (List.length data) 320) as E.
      change (Z.to_nat CHUNK_SIZE) with 320%nat in *. nia. }
  fold (fullChunks data).
  destruct (Nat.eqb_spec (List.length data mod Z.to_nat CHUNK_SIZE) 0) as [H0|Hn].
  - cbn [fanOutLoop]. now destruct (deliver _ _ _).
  - cbn [fanOutLoop]. rewrite slice_window_length.
    pose proof (Nat.div_mod_eq (List.length data) 320) as E.
    pose proof (Nat.mod_upper_bound (List.length data) 320 ltac:(lia)) as B.
    change (Z.to_nat CHUNK_SIZE) with 320%nat in *.
    destruct (Z.eqb_spec
                (Z.of_nat (Nat.min 320 (List.length data - List.length data / 320 * 320)))
                CHUNK_SIZE) as [Heq|_].
    + unfold CHUNK_SIZE in Heq. lia.
    + now destruct (deliver _ _ _).
Qed.

Lemma fan_out_chunks_sized (data : Buffer) :
  List.length (fullChunks data) = (List.length data / 320)%nat /\
  Forall (fun b => Z.of_nat (List.length b) = CHUNK_SIZE) (fullChunks data).
Proof.
  pose proof (Nat.div_mod_eq (List.length data) 320) as E.
  split.
  - unfold fullChunks. now rewrite length_map, length_seq.
  - unfold fullChunks. apply Forall_forall. intros b Hb.
    apply in_map_iff in Hb. destruct Hb as (j & <- & Hj). apply in_seq in Hj.
    rewrite slice_window_length. change (Z.to_nat CHUNK_SIZE) with 320%nat in *.
    unfold CHUNK_SIZE. nia.
Qed.

(** X11. For a block of transcoder output of any length, the fan-out hands
    every client the same floor(length / 320) chunks in order, each of 320
    bytes; put end to end they are the first 320 * floor(length / 320) bytes
    of the block, and the bytes after them (fewer than 320) are not handed
    to anyone, in this block or a later one. *)
Theorem fan_out_windows (data : Buffer) (clients : list Session) (k : Clock) :
  on_stdout_data data clients k = deliver (fullChunks data) clients k /\
  List.length (fullChunks data) = (List.length data / 320)%nat /\
  Forall (fun b => Z.of_nat (List.length b) = CHUNK_SIZE) (fullChunks data) /\
  concat (fullChunks data) = firstn (320 * (List.length data / 320)) data /\
  (List.length data - 320 * (List.length data / 320) < 320)%nat.
Proof.
  pose proof (Nat.div_mod_eq (List.length data) 320) as E.
  pose proof (Nat.mod_upper_bound (List.length data) 320 ltac:(lia)) as B.
  split; [apply on_stdout_data_deliver|].
  split.
  { unfold fullChunks. now rewrite length_map, length_seq. }
  split.
  { unfold fullChunks. apply Forall_forall. intros b Hb.
    apply in_map_iff in Hb. destruct Hb as (j & <- & Hj). apply in_seq in Hj.
    rewrite slice_window_length. change (Z.to_nat CHUNK_SIZE) with 320%nat in *.
    unfold CHUNK_SIZE. nia. }
  split.
  { unfold fullChunks. rewrite concat_windows.
    - f_equal. change (Z.to_nat CHUNK_SIZE) with 320%nat. lia.
    - change (Z.to_nat CHUNK_SIZE) with 320%nat. lia. }
  lia.
Qed.

(** [enqueue] on a session that is not connected is [buffered]. *)
Lemma Session_enqueue_buffered (b : Buffer) (s : Session) (k : Clock) :
  isConnected (client s) = false ->
  Session_enqueue b s k = (buffered [b] s, k).
Proof.
  intros Hc. unfold Session_enqueue. now rewrite enqueue_disconnected.
Qed.

Lemma buffered_cons (b : Buffer) (rest : list Buffer) (s : Session) :
  buffered rest (buffered [b] s) = buffered (b :: rest) s.
Proof. reflexivity. Qed.

Lemma forEach_enqueue_buffered (b : Buffer) (clients : list Session) (k : Clock) :
  List.length (fst (forEach_enqueue b clients k)) = List.length clients /\
  forall i s, nth_error clients i = Some s -> isConnected (client s) = false ->
              nth_error (fst (forEach_enqueue b clients k)) i = Some (buffered [b] s).
Proof.
  revert k. induction clients as [|s0 rest IH]; intros k.
  - split; [reflexivity|]. intros [|i] s H; discriminate.
  - cbn [forEach_enqueue]. destruct (Session_enqueue b s0 k) as [s1 k1] eqn:E.
    specialize (IH k1). destruct (forEach_enqueue b rest k1) as [rest1 k2].
    cbn [fst] in *. destruct IH as [IL IN]. split; [cbn; now rewrite IL|].
    intros [|i] s H Hc; cbn [nth_error] in *.
    + injection H as ->. rewrite Session_enqueue_buffered in E by exact Hc.
      now injection E as <- _.
    + now apply IN.
Qed.

(** X12. Whatever the other clients are doing, a client that is not
    connected when a block of transcoder output arrives ends up with the
    block's full chunks appended to its own queue (within the bound of 50000,
    oldest dropped first) and is otherwise untouched; the list of clients
    keeps its length and order. *)
Theorem fan_out_independent (data : Buffer) (clients : list Session) (k : Clock)
        (i : nat) (s : Session) :
  nth_error clients i = Some s ->
  isConnected (client s) = false ->
  nth_error (fst (on_stdout_data data clients k)) i = Some (buffered (fullChunks data) s) /\
  List.length (fst (on_stdout_data data clients k)) = List.length clients.
Proof.
  intros Hi Hc. rewrite on_stdout_data_deliver.
  generalize (fullChunks data). intros chunks.
  revert clients k s Hi Hc. induction chunks as [|b rest IH]; intros clients k s Hi Hc.
  - cbn [deliver fst]. split; [|reflexivity]. rewrite Hi. f_equal.
    destruct s as [c p]. unfold buffered. cbn. now destruct c.
  - cbn [deliver]. destruct (forEach_enqueue_buffered b clients k) as [L N].
    destruct (forEach_enqueue b clients k) as [clients1 k1]. cbn [fst] in *.
    specialize (N i s Hi Hc).
    destruct (IH clients1 k1 (buffered [b] s) N Hc) as [I1 I2].
    split; [now rewrite I1, buffered_cons | now rewrite I2, L].
Qed.

Lemma fan_out_independent_witness :
  nth_error (fst (on_stdout_data sampleOutput
                    [mkSession streamingClient []; mkSession idleClient []]
                    (frozen 1700000000000))) 1
  = Some (buffered (fullChunks sampleOutput) (mkSession idleClient [])).
Proof.
  exact (proj1 (fan_out_independent sampleOutput
                  [mkSession streamingClient []; mkSession idleClient []]
                  (frozen 1700000000000) 1 (mkSession idleClient []) eq_refl eq_refl)).
Defined.

(** ** The single-camera script *)

Lemma Single_burstLoop_spec (n : nat) (s : Single.State) :
  (n <= List.length (Single.audioQueue s))%nat ->
  SinglePacer.burstLoop n s =
    Some (Single.mkState (skipn n (Single.audioQueue s)) (Single.startTime s)
            (Single.totalBytesSent s + bytesOf (firstn n (Single.audioQueue s)))
            (Single.isThrottling s)
            (Single.written s ++ map rtspFrame (firstn n (Single.audioQueue s)))).
Proof.
  revert s. induction n as [|n IH]; intros [q st tot thr w] Hn; cbn in *.
  - now rewrite app_nil_r, Z.add_0_r.
  - destruct q as [|b q]; [simpl in Hn; lia|].
    cbn [SinglePacer.burstLoop SinglePacer.sendShifted Single.audioQueue].
    unfold SinglePacer.sendShifted. cbn.
    rewrite IH by (cbn; simpl in Hn; lia). cbn.
    rewrite <- app_assoc. cbn. do 2 f_equal. fold (bytesOf (firstn n q)). lia.
Qed.

Lemma Single_maintain_safe (rate : Z) (s : Single.State) (k : Clock) :
  Single.audioQueue s <> [] ->
  exists r, SinglePacer.maintain rate s k = Some r /\
            SinglePacer.history (fst (fst r)) = SinglePacer.history s /\
            Single.totalBytesSent (fst (fst r)) + bytesOf (Single.audioQueue (fst (fst r))) =
              Single.totalBytesSent s + bytesOf (Single.audioQueue s).
Proof.
  intros Hq. unfold SinglePacer.maintain, Date_now. cbv beta iota zeta.
  destruct (SinglePacer.tooFarAhead _ _ _).
  - eexists. split; [reflexivity|]. split; reflexivity.
  - destruct s as [q st tot thr w]. cbn in Hq. destruct q as [|b q]; [congruence|].
    unfold SinglePacer.sendShifted. cbn [Single.audioQueue].
    eexists. split; [reflexivity|].
    unfold SinglePacer.history. cbn. rewrite <- app_assoc. cbn.
    split; [reflexivity|]. fold (bytesOf q). lia.
Qed.

Lemma Single_processQueue_core (rate : Z) (s : Single.State) (k : Clock) :
  exists r, SinglePacer.processQueue rate s k = Some r /\
            SinglePacer.history (fst (fst r)) = SinglePacer.history s /\
            Single.totalBytesSent (fst (fst r)) + bytesOf (Single.audioQueue (fst (fst r))) =
              Single.totalBytesSent s + bytesOf (Single.audioQueue s).
Proof.
  unfold SinglePacer.processQueue. cbv zeta.
  destruct s as [q st tot thr w].
  cbn [SinglePacer.set_isThrottling Single.audioQueue Single.startTime Single.totalBytesSent
       Single.isThrottling Single.written].
  destruct q as [|b q].
  { cbn. eexists. split; [reflexivity|]. split; reflexivity. }
  cbn [List.length Nat.eqb].
  destruct (st =? 0).
  - destruct (Z.gtb_spec (Z.of_nat (S (List.length q))) (burstPackets rate)) as [Hgt|Hle].
    + unfold SinglePacer.set_isThrottling.
      cbn [Single.audioQueue Single.startTime Single.totalBytesSent
           Single.isThrottling Single.written].
      rewrite Single_burstLoop_spec by (cbn [Single.audioQueue List.length]; lia).
      unfold Date_now. cbv beta iota zeta.
      cbn [Single.audioQueue Single.startTime Single.totalBytesSent
           Single.isThrottling Single.written].
      set (n := Z.to_nat (burstPackets rate)).
      assert (Hn : skipn n (b :: q) <> []).
      { intros E. apply (f_equal (@List.length _)) in E. rewrite length_skipn in E.
        cbn [List.length] in E. lia. }
      destruct (Single_maintain_safe rate
                  (SinglePacer.set_startTime (reading k (ticks k))
                     (Single.mkState (skipn n (b :: q)) 0
                        (tot + bytesOf (firstn n (b :: q))) true
                        (w ++ map rtspFrame (firstn n (b :: q)))))
                  (mkClock (reading k) (S (ticks k))) Hn) as (r & Hr & H1 & H2).
      change (SinglePacer.set_startTime (reading k (ticks k))
                (Single.mkState (skipn n (b :: q)) 0
                   (tot + bytesOf (firstn n (b :: q))) true
                   (w ++ map rtspFrame (firstn n (b :: q)))))
        with (Single.mkState (skipn n (b :: q)) (reading k (ticks k))
                (tot + bytesOf (firstn n (b :: q))) true
                (w ++ map rtspFrame (firstn n (b :: q)))) in *.
      exists r. split; [|split].
      * exact Hr.
      * rewrite H1. unfold SinglePacer.history. cbn [Single.written Single.audioQueue].
        now rewrite <- app_assoc, <- map_app, firstn_skipn.
      * rewrite H2. cbn [Single.totalBytesSent Single.audioQueue].
        rewrite <- (firstn_skipn n (b :: q)) at 3. rewrite bytesOf_app. lia.
    + eexists. split; [reflexivity|]. split; reflexivity.
  - apply (Single_maintain_safe rate (Single.mkState (b :: q) st tot true w) k).
    discriminate.
Qed.

(** X13. The drain cycle of the single-camera script never takes a chunk
    from an empty queue, so the unguarded [sendRtspFrame] never receives
    [undefined] and the cycle never throws, for any sample rate and any
    state; like the multi-camera pacer it only moves chunks from the queue
    to the socket, in order, and counts exactly their bytes. *)
Theorem Single_processQueue_safe (rate : Z) (s : Single.State) (k : Clock) :
  SinglePacer.processQueue rate s k <> None /\
  forall r, SinglePacer.processQueue rate s k = Some r ->
            SinglePacer.history (fst (fst r)) = SinglePacer.history s /\
            Single.totalBytesSent (fst (fst r)) + bytesOf (Single.audioQueue (fst (fst r))) =
              Single.totalBytesSent s + bytesOf (Single.audioQueue s).
Proof.
  destruct (Single_processQueue_core rate s k) as (r & Hr & H1 & H2).
  split; [congruence|]. intros r' Hr'. rewrite Hr in Hr'. injection Hr' as <-.
  split; assumption.
Qed.

Lemma pushLoop_app (js1 js2 : list nat) (data : Buffer) (q : list Buffer) :
  SinglePacer.pushLoop (js1 ++ js2) data q =
  SinglePacer.pushLoop js2 data (SinglePacer.pushLoop js1 data q).
Proof.
  revert q. induction js1 as [|j js1 IH]; intros q; [reflexivity|].
  cbn [app SinglePacer.pushLoop]. apply IH.
Qed.

Lemma pushLoop_full (js : list nat) (data : Buffer) (q : list Buffer) :
  (forall j, In j js -> (j * Z.to_nat CHUNK_SIZE + Z.to_nat CHUNK_SIZE <= List.length data)%nat) ->
  SinglePacer.pushLoop js data q =
  q ++ map (fun j => slice (j * Z.to_nat CHUNK_SIZE)
                           (j * Z.to_nat CHUNK_SIZE + Z.to_nat CHUNK_SIZE) data) js.
Proof.
  revert q. induction js as [|j js IH]; intros q H; [now rewrite app_nil_r|].
  cbn [SinglePacer.pushLoop map].
  rewrite slice_window_length.
  replace (Nat.min (Z.to_nat CHUNK_SIZE) (List.length data - j * Z.to_nat CHUNK_SIZE))
    with (Z.to_nat CHUNK_SIZE) by (specialize (H j (or_introl eq_refl)); lia).
  change (Z.of_nat (Z.to_nat CHUNK_SIZE) =? CHUNK_SIZE) with true. cbv iota.
  rewrite IH by (intros j' Hj'; apply H; now right).
  now rewrite <- app_assoc.
Qed.

Lemma pushLoop_fullChunks (data : Buffer) (q : list Buffer) :
  SinglePacer.pushLoop (loopIndices (List.length data)) data q = q ++ fullChunks data.
Proof.
  rewrite loopIndices_split, pushLoop_app.
  rewrite (pushLoop_full (seq 0 (List.length data / Z.to_nat CHUNK_SIZE))).
  2:{ intros j Hj. apply in_seq in Hj.
      pose proof (Nat.div_mod_eq (List.length data) 320) as E.
      change (Z.to_nat CHUNK_SIZE) with 320%nat in *. nia. }
  fold (fullChunks data).
  destruct (Nat.eqb_spec (List.length data mod Z.to_nat CHUNK_SIZE) 0) as [H0|Hn];
    [reflexivity|].
  cbn [SinglePacer.pushLoop]. rewrite slice_window_length.
  pose proof (Nat.div_mod_eq (List.length data) 320) as E.
  pose proof (Nat.mod_upper_bound (List.length data) 320 ltac:(lia)) as B.
  change (Z.to_nat CHUNK_SIZE) with 320%nat in *.
  destruct (Z.eqb_spec
              (Z.of_nat (Nat.min 320 (List.length data - List.length data / 320 * 320)))
              CHUNK_SIZE) as [Heq|_]; [|reflexivity].
  unfold CHUNK_SIZE in Heq. lia.
Qed.

(** X14. In the single-camera script a block of transcoder output of any
    length is cut into the same full chunks as by the fan-out, the short
    remainder dropped; they are appended to the queue in order and the
    handler never throws, whether or not it starts a drain cycle: after it,
    the frames written followed by the frames queued are those from before
    followed by the frames of the block's full chunks. *)
Theorem Single_on_stdout_data_safe (rate : Z) (data : Buffer) (s : Single.State) (k : Clock) :
  exists r, SinglePacer.on_stdout_data rate data s k = Some r /\
            SinglePacer.history (fst (fst r)) =
              SinglePacer.history s ++ map rtspFrame (fullChunks data) /\
            Single.totalBytesSent (fst (fst r)) + bytesOf (Single.audioQueue (fst (fst r))) =
              Single.totalBytesSent s + bytesOf (Single.audioQueue s)
              + CHUNK_SIZE * Z.of_nat (List.length data / 320).
Proof.
  unfold SinglePacer.on_stdout_data. cbv zeta. rewrite pushLoop_fullChunks.
  set (s1 := SinglePacer.set_audioQueue (Single.audioQueue s ++ fullChunks data) s).
  assert (H1 : SinglePacer.history s1 = SinglePacer.history s ++ map rtspFrame (fullChunks data)).
  { unfold SinglePacer.history, s1. cbn. now rewrite map_app, app_assoc. }
  assert (B1 : Single.totalBytesSent s1 + bytesOf (Single.audioQueue s1) =
               Single.totalBytesSent s + bytesOf (Single.audioQueue s)
               + CHUNK_SIZE * Z.of_nat (List.length data / 320)).
  { unfold s1, SinglePacer.set_audioQueue.
    cbn [Single.totalBytesSent Single.audioQueue]. rewrite bytesOf_app.
    destruct (fan_out_chunks_sized data) as [HL HF].
    rewrite (bytesOf_chunks _ HF), HL. lia. }
  destruct (negb (Single.isThrottling s1)).
  - destruct (Single_processQueue_core rate s1 k) as (r & Hr & G1 & G2).
    exists r. split; [exact Hr|]. split; congruence.
  - eexists. split; [reflexivity|]. split; assumption.
Qed.

(** ** The command line *)

Lemma trimStart_head (s : string) :
  Cli.trimStart s = EmptyString \/
  exists a r, Cli.trimStart s = String a r /\ Cli.isWhiteSpace a = false.
Proof.
  induction s as [|a s IH]; [now left|].
  cbn [Cli.trimStart]. destruct (Cli.isWhiteSpace a) eqn:E; [exact IH|].
  right. now exists a, s.
Qed.

Lemma trimEnd_cons (a : ascii) (r : string) :
  Cli.trimEnd (String a r) =
  match Cli.trimEnd r with
  | EmptyString => if Cli.isWhiteSpace a then EmptyString else String a EmptyString
  | String b t => String a (String b t)
  end.
Proof. reflexivity. Qed.

Lemma trimEnd_idem (s : string) : Cli.trimEnd (Cli.trimEnd s) = Cli.trimEnd s.
Proof.
  induction s as [|a s IH]; [reflexivity|].
  rewrite (trimEnd_cons a s). destruct (Cli.trimEnd s) as [|b t] eqn:E.
  - destruct (Cli.isWhiteSpace a) eqn:W; [reflexivity|].
    rewrite trimEnd_cons. cbn [Cli.trimEnd]. now rewrite W.
  - rewrite trimEnd_cons, IH. reflexivity.
Qed.

Lemma trimEnd_keeps_head (a : ascii) (r : string) :
  Cli.isWhiteSpace a = false ->
  exists r', Cli.trimEnd (String a r) = String a r'.
Proof.
  intros W. cbn [Cli.trimEnd]. destruct (Cli.trimEnd r) as [|b t].
  - rewrite W. now exists EmptyString.
  - now exists (String b t).
Qed.

Lemma trim_idem (s : string) : Cli.trim (Cli.trim s) = Cli.trim s.
Proof.
  unfold Cli.trim.
  destruct (trimStart_head s) as [E | (a & r & E & W)]; rewrite E.
  - reflexivity.
  - destruct (trimEnd_keeps_head a r W) as [r' E'].
    assert (H : Cli.trimStart (Cli.trimEnd (String a r)) = Cli.trimEnd (String a r)).
    { rewrite E'. cbn [Cli.trimStart]. now rewrite W. }
    rewrite H. apply trimEnd_idem.
Qed.

Lemma trimStart_chars (c : ascii) (s : string) :
  In c (list_ascii_of_string (Cli.trimStart s)) -> In c (list_ascii_of_string s).
Proof.
  induction s as [|a s IH]; [easy|].
  cbn [Cli.trimStart]. destruct (Cli.isWhiteSpace a); [|easy].
  intros H. right. now apply IH.
Qed.

Lemma trimEnd_chars (c : ascii) (s : string) :
  In c (list_ascii_of_string (Cli.trimEnd s)) -> In c (list_ascii_of_string s).
Proof.
  induction s as [|a s IH]; [easy|].
  cbn [Cli.trimEnd]. destruct (Cli.trimEnd s) as [|b t].
  - destruct (Cli.isWhiteSpace a); [easy|].
    cbn. intros [H|[]]. now left.
  - cbn [list_ascii_of_string]. intros [H|H]; [now left | right; now apply IH].
Qed.

Lemma split_no_comma (s piece : string) :
  In piece (Cli.split s) -> ~ In ","%char (list_ascii_of_string piece).
Proof.
  revert piece. induction s as [|a s IH]; intros piece H.
  - cbn in H. destruct H as [<-|[]]. easy.
  - cbn [Cli.split] in H. destruct (Ascii.eqb_spec a ","%char) as [->|Hne].
    + destruct H as [<-|H]; [easy | now apply IH].
    + destruct (Cli.split s) as [|p ps] eqn:E.
      * destruct H as [<-|[]]. cbn. intros [H|[]]. congruence.
      * destruct H as [<-|H].
        -- cbn [list_ascii_of_string]. intros [H|H]; [congruence|].
           now apply (IH p (or_introl eq_refl)).
        -- apply IH. now right.
Qed.

Lemma extractedIps_Address (v : string) : Forall Cli.Address (Cli.extractedIps v).
Proof.
  apply Forall_forall. intros a Ha. unfold Cli.extractedIps in Ha.
  apply filter_In in Ha. destruct Ha as [Ha Ht].
  apply in_map_iff in Ha. destruct Ha as (piece & <- & Hp).
  split; [|split].
  - intros E. rewrite E in Ht. discriminate.
  - apply trim_idem.
  - intros H. apply (split_no_comma v piece Hp).
    unfold Cli.trim in H. now apply trimStart_chars, trimEnd_chars.
Qed.

Lemma existsb_eqb_In (x : string) (l : list string) :
  existsb (String.eqb x) l = true <-> In x l.
Proof.
  rewrite existsb_exists. split.
  - intros (y & Hy & E). apply String.eqb_eq in E. now subst.
  - intros H. exists x. split; [exact H | apply String.eqb_refl].
Qed.

Lemma dedupe_spec (l seen : list string) :
  NoDup (Cli.dedupe seen l) /\
  (forall x, In x (Cli.dedupe seen l) <-> In x l /\ ~ In x seen).
Proof.
  revert seen. induction l as [|y l IH]; intros seen.
  - split; [constructor | intros x; cbn; tauto].
  - cbn [Cli.dedupe]. destruct (existsb (String.eqb y) seen) eqn:E.
    + apply existsb_eqb_In in E. destruct (IH seen) as [N I].
      split; [exact N|]. intros x. rewrite I. cbn [In].
      split; [tauto|]. intros [[<-|H] Hn]; [contradiction | tauto].
    + assert (Hy : ~ In y seen).
      { intros H. apply existsb_eqb_In in H. congruence. }
      destruct (IH (y :: seen)) as [N I]. split.
      * constructor; [|exact N]. rewrite I. cbn [In]. tauto.
      * intros x. cbn [In]. rewrite I. cbn [In].
        destruct (string_dec y x) as [->|Hne]; tauto.
Qed.

Lemma loop_Address (parseInt parseFloat : option string -> float) (n : nat) :
  forall args p p',
    (List.length args <= n)%nat ->
    Forall Cli.Address (Cli.ips p) ->
    Cli.loop parseInt parseFloat args p = Cli.Returns p' ->
    Forall Cli.Address (Cli.ips p').
Proof.
  induction n as [|n IH]; intros args p p' Hn Hp H.
  - destruct args; [|simpl in Hn; lia]. cbn in H. now injection H as <-.
  - destruct args as [|a rest]; [cbn in H; now injection H as <-|].
    cbn [List.length] in Hn. cbn [Cli.loop] in H.
    destruct (String.eqb a "--ip").
    { destruct rest as [|v rest']; [now injection H as <-|].
      refine (IH rest' _ p' _ _ H); [cbn [List.length] in Hn; lia|].
      destruct (Cli.truthy v); [|exact Hp]. cbn [Cli.ips].
      apply Forall_app. split; [exact Hp | apply extractedIps_Address]. }
    destruct (String.eqb a "--port").
    { destruct rest as [|v rest']; [now injection H as <-|].
      refine (IH rest' _ p' _ _ H); [cbn [List.length] in Hn; lia|exact Hp]. }
    destruct (String.eqb a "--file").
    { destruct rest as [|v rest']; [now injection H as <-|].
      refine (IH rest' _ p' _ _ H); [cbn [List.length] in Hn; lia|exact Hp]. }
    destruct (String.eqb a "--rate").
    { destruct rest as [|v rest']; [now injection H as <-|].
      refine (IH rest' _ p' _ _ H); [cbn [List.length] in Hn; lia|exact Hp]. }
    destruct (String.eqb a "--vol").
    { destruct rest as [|v rest']; [now injection H as <-|].
      refine (IH rest' _ p' _ _ H); [cbn [List.length] in Hn; lia|exact Hp]. }
    destruct (String.eqb a "--debug").
    { refine (IH rest _ p' _ _ H); [lia|exact Hp]. }
    destruct (String.eqb a "--help"); [discriminate|].
    apply (IH rest p p'); [lia|exact Hp|exact H].
Qed.

(** X15. Whenever [parseArgs] returns, the list of addresses is not empty
    and holds no address twice, and every address is a non-empty, trimmed
    piece of an [--ip] value without a comma in it, whatever the arguments
    and whatever [parseInt] and [parseFloat] make of the numbers. *)
Theorem parseArgs_addresses (parseInt parseFloat : option string -> float)
        (args : list string) (p : Cli.Params) :
  Cli.parseArgs parseInt parseFloat args = Cli.Returns p ->
  Cli.ips p <> [] /\ NoDup (Cli.ips p) /\ Forall Cli.Address (Cli.ips p).
Proof.
  unfold Cli.parseArgs. intros H.
  destruct (Cli.loop parseInt parseFloat args (Cli.defaults)) as [p0|code] eqn:El;
    [|discriminate].
  destruct (Cli.ips p0) as [|x l] eqn:Ei; [discriminate|].
  cbn [List.length Nat.eqb] in H. injection H as <-. cbn [Cli.ips].
  pose proof (loop_Address parseInt parseFloat (List.length args) args Cli.defaults p0
                (le_n _) (Forall_nil _) El) as Ha.
  rewrite Ei in Ha.
  destruct (dedupe_spec (x :: l) []) as [N I].
  split; [|split].
  - cbn [Cli.dedupe existsb]. discriminate.
  - exact N.
  - apply Forall_forall. intros a Hin. apply I in Hin.
    rewrite Forall_forall in Ha. apply Ha. tauto.
Qed.

Lemma parseArgs_addresses_witness :
  NoDup ["192.168.1.10"; "192.168.1.11"; "192.168.1.12"]%string /\
  Forall Cli.Address ["192.168.1.10"; "192.168.1.11"; "192.168.1.12"]%string.
Proof.
  refine (proj2 (parseArgs_addresses (fun _ => 0%float) (fun _ => 0%float)
                   ["--ip"; " 192.168.1.10, 192.168.1.11 ,,192.168.1.10"; "--debug";
                    "--ip"; "192.168.1.12"]%string
                   (Cli.mkParams ["192.168.1.10"; "192.168.1.11"; "192.168.1.12"]%string
                                 554%float (Some "music.mp3"%string) 8000%float 0.5%float true)
                   eq_refl)).
Defined.

Lemma loop_without_ip (parseInt parseFloat : option string -> float) (n : nat) :
  forall args p,
    (List.length args <= n)%nat ->
    ~ In "--ip"%string args ->
    Cli.ips p = [] ->
    Cli.loop parseInt parseFloat args p = Cli.Exits 0 \/
    exists p', Cli.loop parseInt parseFloat args p = Cli.Returns p' /\ Cli.ips p' = [].
Proof.
  induction n as [|n IH]; intros args p Hn Hi Hp.
  - destruct args; [|simpl in Hn; lia]. right. now exists p.
  - destruct args as [|a rest]; [right; now exists p|].
    cbn [List.length] in Hn. cbn [In] in Hi. cbn [Cli.loop].
    destruct (String.eqb_spec a "--ip") as [->|_]; [tauto|].
    assert (Hr : ~ In "--ip"%string rest) by tauto.
    assert (Hr' : forall v rest', rest = v :: rest' -> ~ In "--ip"%string rest'
                                  /\ (List.length rest' <= n)%nat).
    { intros v rest' ->. cbn [In List.length] in *. split; [tauto | lia]. }
    destruct (String.eqb a "--port").
    { destruct rest as [|v rest']; [right; eexists; split; [reflexivity|exact Hp]|].
      destruct (Hr' v rest' eq_refl). now apply IH. }
    destruct (String.eqb a "--file").
    { destruct rest as [|v rest']; [right; eexists; split; [reflexivity|exact Hp]|].
      destruct (Hr' v rest' eq_refl). now apply IH. }
    destruct (String.eqb a "--rate").
    { destruct rest as [|v rest']; [right; eexists; split; [reflexivity|exact Hp]|].
      destruct (Hr' v rest' eq_refl). now apply IH. }
    destruct (String.eqb a "--vol").
    { destruct rest as [|v rest']; [right; eexists; split; [reflexivity|exact Hp]|].
      destruct (Hr' v rest' eq_refl). now apply IH. }
    destruct (String.eqb a "--debug"); [apply IH; [lia|exact Hr|exact Hp]|].
    destruct (String.eqb a "--help"); [now left|].
    apply IH; [lia|exact Hr|exact Hp].
Qed.

(** X16. Without an [--ip] flag among the arguments [parseArgs] never
    returns: the process ends with exit code 0 when a [--help] is reached
    and with exit code 1 otherwise. *)
Theorem parseArgs_requires_ip (parseInt parseFloat : option string -> float)
        (args : list string) :
  ~ In "--ip"%string args ->
  Cli.parseArgs parseInt parseFloat args = Cli.Exits 0 \/
  Cli.parseArgs parseInt parseFloat args = Cli.Exits 1.
Proof.
  intros Hi. unfold Cli.parseArgs.
  destruct (loop_without_ip parseInt parseFloat (List.length args) args Cli.defaults
              (le_n _) Hi eq_refl) as [-> | (p' & -> & Hp)]; [now left|].
  rewrite Hp. now right.
Qed.

Lemma parseArgs_requires_ip_witness :
  Cli.parseArgs (fun _ => 0%float) (fun _ => 0%float)
                ["--port"; "8554"; "--file"; "alert.wav"]%string = Cli.Exits 1.
Proof.
  assert (Hi : ~ In "--ip"%string ["--port"; "8554"; "--file"; "alert.wav"]%string).
  { cbn [In]. intros [H|[H|[H|[H|[]]]]]; discriminate H. }
  destruct (parseArgs_requires_ip (fun _ => 0%float) (fun _ => 0%float)
              ["--port"; "8554"; "--file"; "alert.wav"]%string Hi) as [H|H].
  - discriminate H.
  - exact H.
Defined.

(** ** After the connection timeout *)

(** X17. The ['timeout'] handler destroys the socket, marks the client not
    connected and empties its queue; chunks that arrive afterwards are
    buffered again, up to the bound of 50000, although no sequence of
    arrivals and callbacks will ever write one of them to the socket. *)
Theorem after_timeout_buffers (c : CameraClient) (p : list Timer) (chunks : list Buffer)
        (es : list Event) (k k' : Clock) :
  let t := on_timeout c in
  let s := fst (feed chunks (mkSession t p) k) in
  audioQueue t = [] /\
  destroyed (socket t) = true /\
  isConnected t = false /\
  s = mkSession (set_audioQueue (retained [] chunks) t) p /\
  snd (feed chunks (mkSession t p) k) = k /\
  Z.of_nat (List.length (audioQueue (client s))) <= MAX_QUEUE_WHILE_DISCONNECTED /\
  (Z.of_nat (List.length chunks) <= MAX_QUEUE_WHILE_DISCONNECTED ->
   audioQueue (client s) = chunks) /\
  written (socket (client (fst (play es s k')))) = written (socket c) /\
  totalBytesSent (client (fst (play es s k'))) = totalBytesSent c.
Proof.
  intros t s.
  assert (Hs : s = mkSession (set_audioQueue (retained [] chunks) t) p)
    by (unfold s; now rewrite feed_disconnected).
  split; [reflexivity|]. split; [reflexivity|]. split; [reflexivity|].
  split; [exact Hs|].
  split; [now rewrite feed_disconnected|].
  rewrite Hs. cbn [client set_audioQueue audioQueue].
  split.
  { pose proof (retained_length chunks []) as H. cbn [List.length] in H.
    unfold MAX_QUEUE_WHILE_DISCONNECTED in *. lia. }
  split.
  { intros Hn. rewrite retained_recent by (cbn; unfold MAX_QUEUE_WHILE_DISCONNECTED; lia).
    cbn [app].
    replace (List.length chunks - Z.to_nat MAX_QUEUE_WHILE_DISCONNECTED)%nat with 0%nat by lia.
    reflexivity. }
  destruct (play_destroyed es (mkSession (set_audioQueue (retained [] chunks) t) p) k' eq_refl)
    as (P1 & P2 & _).
  rewrite P1, P2. split; reflexivity.
Qed.
